(** * Direct-to-storage upload flow of the employee / R2 tool

    A shallow embedding of

    - [src/upload/UploadPage.tsx]: the React component that validates a chosen
      file, asks the server for a presigned URL, PUTs the file with an
      [XMLHttpRequest] and refreshes the listing,
    - [src/shared/api.ts]: [apiGet],
    - [worker/index.ts]: the itty-router table of the Worker.

    JavaScript values are modelled as the code sees them: parsed JSON as an
    inductive type, Numbers as IEEE-754 binary64 values (the Standard
    Library's [spec_float] with precision 53), promises as computations that
    return, throw or never settle, and the component's [useState] cells as a
    record that every step threads through. *)

From Stdlib Require Import ZArith List String Ascii Bool Lia.
From Stdlib Require Import Floats.SpecFloat.
From Stdlib Require Import DecimalString.
From Stdlib Require Import Reals Lra.
From Stdlib Require PrimFloat FloatOps Uint63.
Import ListNotations.

Open Scope string_scope.
Open Scope Z_scope.

(** ** JavaScript Numbers *)

(** A Number is a binary64 float. *)
Definition number : Type := spec_float.

Module Number.

Definition prec : Z := 53.
Definition emax : Z := 1024.

(** The Number nearest to an integer (ties to even): how a WebIDL
    [unsigned long long] such as [ProgressEvent.loaded] reaches script, and
    the value of an integer literal. *)
Definition of_Z (z : Z) : number := binary_normalize prec emax z 0 false.

Definition div (x y : number) : number := SFdiv prec emax x y.
Definition mul (x y : number) : number := SFmul prec emax x y.

(** [Math.round]: the integer nearest to [x], ties towards +infinity, that
    is [floor (x + 1/2)] computed exactly.  A float [m * 2^e] with [e >= 0]
    is already an integer.  The result is [None] for NaN and the
    infinities, which [Math.round] returns unchanged. *)
Definition round_Z (x : number) : option Z :=
  match x with
  | S754_zero _ => Some 0
  | S754_finite s m e =>
      let sm := if s then Z.neg m else Z.pos m in
      if 0 <=? e then Some (sm * 2 ^ e)
      else Some ((2 * sm + 2 ^ (- e)) / 2 ^ (- e + 1))
  | S754_infinity _ | S754_nan => None
  end.

Definition Math_round (x : number) : number :=
  match round_Z x with
  | Some 0 =>
      (* the sign of a zero result follows the argument *)
      match x with
      | S754_zero s | S754_finite s _ _ => S754_zero s
      | _ => x
      end
  | Some z => of_Z z
  | None => x
  end.

(** ToBoolean on a Number: zero and NaN are falsy. *)
Definition truthy (x : number) : bool :=
  match x with
  | S754_zero _ | S754_nan => false
  | _ => true
  end.

End Number.

(** ** Parsed JSON and property access *)

(** What [Response.json()] resolves with.  An object lists its own
    properties, each key once. *)
#[local] Unset Elimination Schemes.
Inductive json : Type :=
| JNull
| JBool (b : bool)
| JNum (x : number)
| JStr (s : string)
| JArr (items : list json)
| JObj (fields : list (string * json)).
#[local] Set Elimination Schemes.

(** ToBoolean. *)
Definition truthy (v : json) : bool :=
  match v with
  | JNull => false
  | JBool b => b
  | JNum x => Number.truthy x
  | JStr s => negb (s =? "")%string
  | JArr _ | JObj _ => true
  end.

Fixpoint assoc (k : string) (fields : list (string * json)) : option json :=
  match fields with
  | [] => None
  | (k', v) :: rest => if (k' =? k)%string then Some v else assoc k rest
  end.

(** [v.k] on a value that is neither null nor undefined; [None] is
    [undefined].  Only objects parsed from JSON carry the keys read here
    ([url], [objects]); arrays, strings, numbers and booleans do not. *)
Definition get (v : json) (k : string) : option json :=
  match v with
  | JObj fields => assoc k fields
  | _ => None
  end.

(** [v?.k]. *)
Definition get_opt (v : json) (k : string) : option json :=
  match v with
  | JNull => None
  | _ => get v k
  end.

(** [x || d] where [x] may be undefined. *)
Definition or_else (x : option json) (d : json) : json :=
  match x with
  | Some v => if truthy v then v else d
  | None => d
  end.

(** The value of [x] when [!x] is false, where [x] may be undefined. *)
Definition when_truthy (x : option json) : option json :=
  match x with
  | Some v => if truthy v then Some v else None
  | None => None
  end.

(** [String.prototype.includes]. *)
Definition includes (s sub : string) : bool :=
  match String.index 0 sub s with
  | Some _ => true
  | None => false
  end.

(** ** The browser side: files, HTTP replies, XHR events *)

Record File : Type := mkFile
  { name : string;
    size : Z;          (* bytes; [File.size] is a non-negative integer *)
    type : string }.   (* MIME type, empty when unknown *)

Record Response : Type := mkResponse
  { status : Z;
    statusText : string;
    content_type : option string;   (* [headers.get('content-type')] *)
    body : option json }.           (* [None]: the body is not JSON, [json()] rejects *)

(** [Response.ok]. *)
Definition ok (r : Response) : bool := (200 <=? status r) && (status r <=? 299).

(** What [fetch] settles with. *)
Inductive fetch_result : Type :=
| NoReply                        (* network failure: [fetch] rejects *)
| Reply (r : Response).

(** The events an [XMLHttpRequest] fires after [send]. *)
Inductive xhr_event : Type :=
| UploadProgress (lengthComputable : bool) (loaded total : Z)
| Load (status : Z) (statusText : string)
| NetError.

(** How the outside world answers during one attempt. *)
Record world : Type := mkWorld
  { fetch_reply : string -> list (string * string) -> fetch_result;
    xhr_events : list xhr_event }.

(** ** Effects, errors and the component state *)

Inductive error : Type :=
| TypeError (reading : string)      (* property read on null *)
| SyntaxError                       (* [json()] on a body that is not JSON *)
| FetchError                        (* [fetch] rejected *)
| Error (message : string).         (* [new Error(message)] *)

Inductive effect : Type :=
| Alert (message : string)
| AlertPresignFailed (payload : json)   (* alert('presign failed: ' + JSON.stringify(payload)) *)
| Fetch (path : string) (query : list (string * string))   (* before URL encoding *)
        (credentials : option string)
| XhrOpen (method : string) (url : json) (async : bool)
| XhrSetRequestHeader (header value : string)
| XhrSend (body : File)
| ConsoleWarn (message : string)
| UnhandledRejection (e : error).

Definition is_alert (e : effect) : bool :=
  match e with Alert _ | AlertPresignFailed _ => true | _ => false end.

Definition is_fetch (e : effect) : bool :=
  match e with Fetch _ _ _ => true | _ => false end.

Definition is_xhr (e : effect) : bool :=
  match e with XhrOpen _ _ _ | XhrSetRequestHeader _ _ | XhrSend _ => true | _ => false end.

Definition is_network (e : effect) : bool := is_fetch e || is_xhr e.

(** The three [useState] cells of [UploadPage] ([maxSize] never changes and is
    a constant below). *)
Record state : Type := mkState
  { file : option File;
    progress : number;
    objects : json }.

Definition maxSize : Z := 1024 * 1024 * 1024.

Definition initial : state :=
  {| file := None; progress := Number.of_Z 0; objects := JArr [] |}.

Record machine : Type := mkMachine
  { ui : state;
    log : list effect }.

(** ** Asynchronous computations

    An [async] function either returns, throws (its promise rejects) or never
    settles. *)
Inductive outcome (A : Type) : Type :=
| Return (a : A)
| Throw (e : error)
| Pending.

Arguments Return {A} a.
Arguments Throw {A} e.
Arguments Pending {A}.

Definition M (A : Type) : Type := machine -> outcome A * machine.

Definition ret {A} (a : A) : M A := fun m => (Return a, m).
Definition throw {A} (e : error) : M A := fun m => (Throw e, m).

Definition bind {A B} (c : M A) (k : A -> M B) : M B :=
  fun m =>
    match c m with
    | (Return a, m') => k a m'
    | (Throw e, m') => (Throw e, m')
    | (Pending, m') => (Pending, m')
    end.

Declare Scope js_scope.
Delimit Scope js_scope with js.
Notation "'let*' x := c 'in' k" := (bind c (fun x => k))
  (at level 10, x name, c at level 100, k at level 200) : js_scope.
Notation "c ;; k" := (bind c (fun _ => k))
  (at level 100, k at level 200, right associativity) : js_scope.
Open Scope js_scope.

Definition emit (e : effect) : M unit :=
  fun m => (Return tt, {| ui := ui m; log := log m ++ [e] |}).

Definition alert (message : string) : M unit := emit (Alert message).

Definition getFile : M (option File) := fun m => (Return (file (ui m)), m).

Definition setFile (f : option File) : M unit :=
  fun m => (Return tt,
            {| ui := {| file := f; progress := progress (ui m); objects := objects (ui m) |};
               log := log m |}).

Definition setProgress (p : number) : M unit :=
  fun m => (Return tt,
            {| ui := {| file := file (ui m); progress := p; objects := objects (ui m) |};
               log := log m |}).

Definition setObjects (o : json) : M unit :=
  fun m => (Return tt,
            {| ui := {| file := file (ui m); progress := progress (ui m); objects := o |};
               log := log m |}).

(** A call whose promise nobody awaits: the caller goes on, and a rejection
    is reported by the runtime as unhandled. *)
Definition detached (c : M unit) : M unit :=
  fun m =>
    match c m with
    | (Throw e, m') => emit (UnhandledRejection e) m'
    | (_, m') => (Return tt, m')
    end.

(** [await fetch(path?query, {credentials})]. *)
Definition fetch (w : world) (path : string) (query : list (string * string))
    (credentials : option string) : M Response :=
  emit (Fetch path query credentials) ;;
  match fetch_reply w path query with
  | NoReply => throw FetchError
  | Reply r => ret r
  end.

(** [await r.json()]. *)
Definition json_of (r : Response) : M json :=
  match body r with
  | Some j => ret j
  | None => throw SyntaxError
  end.

(** [v.k] where [v] may be null. *)
Definition member (v : json) (k : string) : M (option json) :=
  match v with
  | JNull => throw (TypeError k)
  | _ => ret (get v k)
  end.

(** A string operand of [||]: the empty string is falsy. *)
Definition str_or (s d : string) : string :=
  if (s =? "")%string then d else s.

(** Number-to-string conversion of an integer. *)
Definition string_of_Z (z : Z) : string := NilZero.string_of_int (Z.to_int z).

(** ** [src/shared/api.ts] *)

Definition apiGet (w : world) (path : string) : M json :=
  let* res := fetch w path [] (Some "same-origin") in
  if negb (ok res) then
    emit (ConsoleWarn ("apiGet " ++ path ++ " returned "
                         ++ string_of_Z (status res) ++ " " ++ statusText res)) ;;
    ret JNull
  else
    let contentType :=
      match content_type res with Some c => str_or c "" | None => "" end in
    if negb (includes contentType "application/json") then ret JNull
    else
      match body res with
      | Some j => ret j
      | None => emit (ConsoleWarn "apiGet parse error") ;; ret JNull
      end.

(** ** [src/upload/UploadPage.tsx] *)

Definition refreshList (w : world) : M unit :=
  let* res := apiGet w "/api/r2/list" in
  let* objs := member res "objects" in
  setObjects (or_else objs (JArr [])).

(** The [useEffect] run once after the first render. *)
Definition mount (w : world) : M unit := detached (refreshList w).

(** The promise built by [new Promise((resolve, reject) => ...)]: [resolve]
    and [reject] act on an unsettled promise only. *)
Inductive promise : Type :=
| Unsettled
| Fulfilled
| Rejected (e : error).

Definition resolve (p : promise) : promise :=
  match p with Unsettled => Fulfilled | _ => p end.

Definition reject (e : error) (p : promise) : promise :=
  match p with Unsettled => Rejected e | _ => p end.

(** [await p]. *)
Definition await (p : promise) : M unit :=
  fun m =>
    match p with
    | Fulfilled => (Return tt, m)
    | Rejected e => (Throw e, m)
    | Unsettled => (Pending, m)
    end.

(** [Math.round((e.loaded / e.total) * 100)]. *)
Definition percent (loaded total : Z) : number :=
  Number.Math_round
    (Number.mul (Number.div (Number.of_Z loaded) (Number.of_Z total)) (Number.of_Z 100)).

(** [xhr.upload.onprogress]. *)
Definition onprogress (onProgress : number -> M unit)
    (lengthComputable : bool) (loaded total : Z) : M unit :=
  if lengthComputable then onProgress (percent loaded total) else ret tt.

(** [xhr.onload]. *)
Definition onload (status : Z) (statusText : string) (p : promise) : promise :=
  if (200 <=? status) && (status <? 300) then resolve p
  else reject (Error ("Upload failed: " ++ statusText ++ " " ++ string_of_Z status)) p.

(** [xhr.onerror]. *)
Definition onerror (p : promise) : promise :=
  reject (Error "XHR network error") p.

(** One event delivered to the handlers that [putWithProgress] registered. *)
Definition dispatch (onProgress : number -> M unit) (ev : xhr_event) (p : promise)
  : M promise :=
  match ev with
  | UploadProgress lengthComputable loaded total =>
      onprogress onProgress lengthComputable loaded total ;; ret p
  | Load status statusText => ret (onload status statusText p)
  | NetError => ret (onerror p)
  end.

Fixpoint deliver (onProgress : number -> M unit) (evs : list xhr_event) (p : promise)
  : M promise :=
  match evs with
  | [] => ret p
  | ev :: rest =>
      let* p' := dispatch onProgress ev p in
      deliver onProgress rest p'
  end.

(** The executor opens the request, sets the header, registers the handlers
    and sends; the browser then fires the events of this request.  Upload
    progress events come before the final [load] or [error], so the promise
    is read once all of them have been delivered. *)
Definition putWithProgress (w : world) (url : json) (file : File)
    (onProgress : number -> M unit) : M promise :=
  emit (XhrOpen "PUT" url true) ;;
  emit (XhrSetRequestHeader "Content-Type" (str_or (type file) "application/octet-stream")) ;;
  emit (XhrSend file) ;;
  deliver onProgress (xhr_events w) Unsettled.

Definition upload (w : world) : M unit :=
  let* selected := getFile in
  match selected with
  | None => alert "choose a file"
  | Some file =>
      if size file >? maxSize then alert "file exceeds max size (1GB)"
      else
        (* Request presigned PUT URL *)
        let params := [("filename", name file); ("contentType", type file)] in
        let* r := fetch w "/api/r2/presign" params None in
        let* payload := json_of r in
        match when_truthy (get_opt payload "url") with
        | None => emit (AlertPresignFailed payload)
        | Some presignedUrl =>
            (* Use XHR to track progress *)
            let* p := putWithProgress w presignedUrl file (fun p => setProgress p) in
            await p ;;
            alert "Upload complete" ;;
            setProgress (Number.of_Z 0) ;;
            setFile None ;;
            detached (refreshList w)
        end
  end.

(** Running a computation from a given component state with an empty log. *)
Definition run {A} (c : M A) (s : state) : outcome A * machine :=
  c {| ui := s; log := [] |}.

(** ** [worker/index.ts] *)

Module Worker.

Inductive Body : Type :=
| Json (j : json)                 (* JSON.stringify(obj, null, 2) *)
| Text (s : string)
| Asset (content : string).       (* bytes of a static asset *)

Record Response : Type := mkResponse
  { status : Z;
    content_type : option string;
    body : Body }.

Record Request : Type := mkRequest
  { method : string;
    pathname : string;                     (* new URL(request.url).pathname *)
    query : list (string * string);        (* its search parameters *)
    payload : option json }.               (* request.json(); [None]: it rejects *)

(** The D1 binding, by what its two statements yield: an error message when
    the call throws. *)
Record D1Database : Type := mkD1
  { insert_employee : json -> json -> json -> json -> string + option json;
    all_employees : string + option json }.

(** The R2 binding: [list({prefix})] throws with a message, or yields the
    [objects] of the listing if it has any. *)
Record R2Bucket : Type := mkR2
  { list_prefix : string -> string + option (list json) }.

(** The Workers Sites binding together with [getAssetFromKV]: the asset
    served for a path (content type and bytes), [None] when the lookup
    throws. *)
Definition KVNamespace : Type := string -> option (string * string).

Record Env : Type := mkEnv
  { ASSETS : option KVNamespace;
    employee_db : option D1Database;
    BUCKET : option R2Bucket;
    R2_ACCESS_KEY : option string;
    R2_SECRET_KEY : option string;
    R2_ACCOUNT_ID : option string }.

Definition jsonResponse (obj : json) (status : Z) : Response :=
  {| status := status; content_type := Some "application/json"; body := Json obj |}.

Definition textResponse (s : string) (status : Z) : Response :=
  {| status := status; content_type := Some "text/plain;charset=UTF-8"; body := Text s |}.

Definition assetResponse (a : string * string) : Response :=
  {| status := 200; content_type := Some (fst a); body := Asset (snd a) |}.

(** [safeJson]. *)
Definition safeJson (req : Request) : json :=
  match payload req with
  | Some j => j
  | None => JNull
  end.

(** [!x] for a value that may be undefined. *)
Definition falsy (x : option json) : bool :=
  match when_truthy x with
  | Some _ => false
  | None => true
  end.

(** The four values are handed to the statement as they are read from the
    body; their [String(...)] conversion is left to the binding. *)
Definition post_employees (env : Env) (request : Request) : Response :=
  let body := safeJson request in
  if falsy (get_opt body "nirc") || falsy (get_opt body "full_name")
     || falsy (get_opt body "email")
  then jsonResponse (JObj [("error", JStr "nirc, full_name and email required")]) 400
  else
    let nirc := or_else (get body "nirc") JNull in
    let full_name := or_else (get body "full_name") JNull in
    let position := or_else (get body "position") (JStr "") in
    let email := or_else (get body "email") JNull in
    match employee_db env with
    | None => jsonResponse (JObj [("error", JStr "D1 binding not configured")]) 500
    | Some db =>
        match insert_employee db nirc full_name position email with
        | inr (Some id) => jsonResponse (JObj [("success", JBool true); ("id", id)]) 201
        | inr None => jsonResponse (JObj [("success", JBool true)]) 201
        | inl message => jsonResponse (JObj [("error", JStr message)]) 500
        end
    end.

Definition get_employees (env : Env) (request : Request) : Response :=
  match employee_db env with
  | None => jsonResponse (JObj [("error", JStr "D1 binding not configured")]) 500
  | Some db =>
      match all_employees db with
      | inr results => jsonResponse (JObj [("results", or_else results (JArr []))]) 200
      | inl message => jsonResponse (JObj [("error", JStr message)]) 500
      end
  end.

(** The four fields copied from each listed object; a field the object lacks
    is undefined and dropped by [JSON.stringify]. *)
Definition summary (o : json) : json :=
  JObj (flat_map (fun k => match get o k with Some v => [(k, v)] | None => [] end)
          ["key"; "size"; "uploaded"; "httpEtag"]).

Definition get_r2_list (env : Env) (request : Request) : Response :=
  match BUCKET env with
  | None => jsonResponse (JObj [("error", JStr "R2 binding not configured")]) 500
  | Some bucket =>
      match list_prefix bucket "uploads/" with
      | inr (Some objects) => jsonResponse (JObj [("objects", JArr (map summary objects))]) 200
      | inr None => jsonResponse (JObj [("objects", JArr [])]) 200
      | inl message => jsonResponse (JObj [("error", JStr message)]) 500
      end
  end.

Definition bound {A} (k : string) (x : option A) : list json :=
  match x with Some _ => [JStr k] | None => [] end.

(** [Object.keys(env).sort()] over the bindings that are set. *)
Definition get_debug_env (env : Env) (request : Request) : Response :=
  jsonResponse
    (JObj [("env", JArr (bound "ASSETS" (ASSETS env) ++ bound "BUCKET" (BUCKET env)
                          ++ bound "R2_ACCESS_KEY" (R2_ACCESS_KEY env)
                          ++ bound "R2_ACCOUNT_ID" (R2_ACCOUNT_ID env)
                          ++ bound "R2_SECRET_KEY" (R2_SECRET_KEY env)
                          ++ bound "employee_db" (employee_db env))%list)]) 200.

Definition serveAsset (env : Env) (pathname : string) : Response :=
  match ASSETS env with
  | None =>
      textResponse "Asset binding (ASSETS) not configured. Ensure [site] in wrangler.toml." 500
  | Some assets =>
      match assets pathname with
      | Some a => assetResponse a
      | None =>
          match assets "/employee.html" with
          | Some a => assetResponse a
          | None => textResponse "Not Found" 404
          end
      end
  end.

Definition get_any (env : Env) (request : Request) : Response :=
  if ((pathname request =? "/") || (pathname request =? "/employee"))%string
  then serveAsset env "/employee.html"
  else if (pathname request =? "/upload")%string
  then serveAsset env "/upload.html"
  else serveAsset env (pathname request).

(** A route of the itty-router table: method, path pattern, handler. *)
Inductive pattern : Type :=
| Path (p : string)
| Any.                                   (* '*' *)

Record route : Type := mkRoute
  { verb : string;
    path : pattern;
    handler : Env -> Request -> Response }.

(** The routes in the order the source registers them. *)
Definition router : list route :=
  [ {| verb := "POST"; path := Path "/api/employees"; handler := post_employees |};
    {| verb := "GET"; path := Path "/api/employees"; handler := get_employees |};
    {| verb := "GET"; path := Path "/api/r2/list"; handler := get_r2_list |};
    {| verb := "GET"; path := Path "/_debug/env"; handler := get_debug_env |};
    {| verb := "GET"; path := Any; handler := get_any |} ].

(** A path pattern is matched up to trailing slashes. *)
Fixpoint trim (s : string) : string :=
  match s with
  | EmptyString => EmptyString
  | String c rest =>
      let r := trim rest in
      if (Ascii.eqb c "/" && (r =? ""))%string then EmptyString else String c r
  end.

Definition matches (r : route) (request : Request) : bool :=
  ((verb r =? method request)%string
   && match path r with
      | Path p => (trim (pathname request) =? p)%string
      | Any => true
      end).

(** [router.handle]: the first matching route answers; [None] when no route
    matches. *)
Definition handle (request : Request) (env : Env) : option Response :=
  match find (fun r => matches r request) router with
  | Some r => Some (handler r env request)
  | None => None
  end.

(** The exported [fetch]: every handler catches what it may throw, so the
    catch-all of the source is never entered. *)
Definition fetch (request : Request) (env : Env) : option Response :=
  handle request env.

End Worker.

(** ** The spec's formula

    Modelled from the spec: the progress contract reads
    [round(sent/total * 100)].  This is that formula in exact arithmetic,
    [floor (100 * sent / total + 1/2)], a tie going up as [Math.round] does
    (and, where the lower neighbour is odd, as rounding to even does too). *)
Definition spec_round (sent total : Z) : Z :=
  (2 * (100 * sent) + total) / (2 * total).

(** ** Vocabulary of the statements *)

Definition presign_request (f : File) : effect :=
  Fetch "/api/r2/presign" [("filename", name f); ("contentType", type f)] None.

Definition presign_reply (w : world) (f : File) : fetch_result :=
  fetch_reply w "/api/r2/presign" [("filename", name f); ("contentType", type f)].

Definition list_request : effect := Fetch "/api/r2/list" [] (Some "same-origin").

Definition is_warning (e : effect) : bool :=
  match e with ConsoleWarn _ => true | _ => false end.

Definition is_terminal (ev : xhr_event) : bool :=
  match ev with
  | Load _ _ | NetError => true
  | UploadProgress _ _ _ => false
  end.

(** What one event does to the promise. *)
Definition settle (ev : xhr_event) (p : promise) : promise :=
  match ev with
  | Load st tx => onload st tx p
  | NetError => onerror p
  | UploadProgress _ _ _ => p
  end.

Definition request_of (url : json) (f : File) : list effect :=
  [XhrOpen "PUT" url true;
   XhrSetRequestHeader "Content-Type" (str_or (type f) "application/octet-stream");
   XhrSend f].

(** The value [apiGet] resolves with, given the reply. *)
Definition parsed (r : Response) : json :=
  if ok r
  then
    if includes (match content_type r with Some c => str_or c "" | None => "" end)
         "application/json"
    then match body r with Some j => j | None => JNull end
    else JNull
  else JNull.

(** *** Floats read as real numbers *)

(** The real number [m * 2^e]. *)
Definition F2R (m e : Z) : R := (IZR m * powerRZ 2 e)%R.

(** The unit roundoff of binary64. *)
Definition eps : R := (/ IZR (2 ^ 53))%R.

(** A 53-bit mantissa. *)
Definition normal (m : positive) : Prop := 2 ^ 52 <= Z.pos m < 2 ^ 53.

(** Where [N / D] lies between the integers [N / D] and [N / D + 1], as a
    rounding location says it. *)
Definition loc_ok (l : location) (N D : Z) : Prop :=
  match l with
  | loc_Exact => N mod D = 0
  | loc_Inexact Lt => 0 < 2 * (N mod D) < D
  | loc_Inexact Eq => 2 * (N mod D) = D
  | loc_Inexact Gt => D < 2 * (N mod D)
  end.

(** A shift record that holds the integer part of [N / D] and locates the
    rest. *)
Definition located (r : shr_record) (N D : Z) : Prop :=
  shr_m r = N / D /\ loc_ok (loc_of_shr_record r) N D.

(** ** Scenario data used by the closed examples *)

Definition report : File :=
  {| name := "report.pdf"; size := 2048; type := "application/pdf" |}.

Definition huge : File :=
  {| name := "backup.tar"; size := 1073741825; type := "" |}.

Definition stored : json :=
  JObj [("key", JStr "uploads/report.pdf");
        ("size", JNum (Number.of_Z 2048));
        ("uploaded", JStr "t0")].

Definition json_reply (code : Z) (text : string) (j : json) : fetch_result :=
  Reply {| status := code; statusText := text;
           content_type := Some "application/json"; body := Some j |}.

(** A server that answers the presign request with [presign] and the listing
    request with [listing]. *)
Definition server (presign listing : fetch_result) (evs : list xhr_event) : world :=
  {| fetch_reply := fun path _ =>
       if (path =? "/api/r2/presign")%string then presign else listing;
     xhr_events := evs |}.

Definition issued : fetch_result :=
  json_reply 200 "OK" (JObj [("url", JStr "https://store.example/abc")]).

Definition listed : fetch_result :=
  json_reply 200 "OK" (JObj [("objects", JArr [stored])]).

Definition selecting (f : File) : state :=
  {| file := Some f; progress := Number.of_Z 0; objects := JArr [] |}.

(** The reply of an issuer that fails with status 500 and still carries a
    [url]. *)
Definition failing_issuer : fetch_result :=
  json_reply 500 "Internal Server Error"
    (JObj [("url", JStr "https://store.example/abc")]).

Definition refusing_issuer : fetch_result :=
  json_reply 400 "Bad Request" (JObj [("error", JStr "filename required")]).

(** The reply of a lister whose bucket binding is missing. *)
Definition failing_lister : fetch_result :=
  json_reply 500 "Internal Server Error"
    (JObj [("error", JStr "R2 binding not configured")]).

Definition showing (entries : list json) : state :=
  {| file := None; progress := Number.of_Z 0; objects := JArr entries |}.

(** The presign request as the Worker receives it. *)
Definition presign_http (filename contentType : string) : Worker.Request :=
  {| Worker.method := "GET"; Worker.pathname := "/api/r2/presign";
     Worker.query := [("filename", filename); ("contentType", contentType)];
     Worker.payload := None |}.

Definition site : Worker.KVNamespace :=
  fun p =>
    if (p =? "/employee.html")%string then Some ("text/html", "<!doctype html><title>Employees</title>")
    else if (p =? "/upload.html")%string then Some ("text/html", "<!doctype html><title>Upload</title>")
    else None.

Definition deployed : Worker.Env :=
  {| Worker.ASSETS := Some site;
     Worker.employee_db := None;
     Worker.BUCKET := Some {| Worker.list_prefix := fun _ => inr (Some []) |};
     Worker.R2_ACCESS_KEY := Some "key";
     Worker.R2_SECRET_KEY := Some "secret";
     Worker.R2_ACCOUNT_ID := Some "account" |}.

(** ** [src/employee/EmployeePage.tsx] and [apiPost] of [src/shared/api.ts]

    The employee page has its own [useState] cells and calls both helpers of
    [api.ts]; its computations thread a page state and a log of their own. *)

Module EmployeePage.

Record Form : Type := mkForm
  { nirc : string;
    full_name : string;
    position : string;
    email : string }.

Definition blank : Form :=
  {| nirc := ""; full_name := ""; position := ""; email := "" |}.

(** The object [JSON.stringify(form)] sends. *)
Definition form_json (f : Form) : json :=
  JObj [("nirc", JStr (nirc f)); ("full_name", JStr (full_name f));
        ("position", JStr (position f)); ("email", JStr (email f))].

(** The four cells of the page; the cell the source calls [error] is
    [error_message] here. *)
Record cells : Type := mkCells
  { employees : list json;
    form : Form;
    loading : bool;
    error_message : option string }.

Inductive call : Type :=
| Get (path : string)                         (* fetch(path, {credentials}) *)
| Post (path : string) (sent : option json)   (* fetch(path, {method: 'POST', ..., body}) *)
| Warn (message : string)                     (* console.warn *)
| LogError (message : string)                 (* console.error *)
| Unhandled (e : error).                      (* rejection nobody handles *)

Record world : Type := mkWorld
  { get_reply : string -> fetch_result;
    post_reply : string -> option json -> fetch_result }.

Record page : Type := mkPage
  { ui : cells;
    log : list call }.

Definition P (A : Type) : Type := page -> outcome A * page.

Definition ret {A} (a : A) : P A := fun m => (Return a, m).
Definition throw {A} (e : error) : P A := fun m => (Throw e, m).

Definition bind {A B} (c : P A) (k : A -> P B) : P B :=
  fun m =>
    match c m with
    | (Return a, m') => k a m'
    | (Throw e, m') => (Throw e, m')
    | (Pending, m') => (Pending, m')
    end.

(** [try { c } catch (err) { h err }]. *)
Definition try_catch {A} (c : P A) (h : error -> P A) : P A :=
  fun m =>
    match c m with
    | (Throw e, m') => h e m'
    | r => r
    end.

(** [try { c } finally { f }]: [f] runs once [c] has returned or thrown. *)
Definition finally {A} (c : P A) (f : P unit) : P A :=
  fun m =>
    match c m with
    | (Pending, m') => (Pending, m')
    | (r, m') =>
        match f m' with
        | (Return _, m'') => (r, m'')
        | (Throw e, m'') => (Throw e, m'')
        | (Pending, m'') => (Pending, m'')
        end
    end.

Definition emit (e : call) : P unit :=
  fun m => (Return tt, {| ui := ui m; log := log m ++ [e] |}).

(** [void c]: the caller goes on whatever becomes of [c]. *)
Definition detached (c : P unit) : P unit :=
  fun m =>
    match c m with
    | (Throw e, m') => emit (Unhandled e) m'
    | (_, m') => (Return tt, m')
    end.

Definition getForm : P Form := fun m => (Return (form (ui m)), m).

Definition setEmployees (l : list json) : P unit :=
  fun m => (Return tt,
            {| ui := {| employees := l; form := form (ui m); loading := loading (ui m);
                        error_message := error_message (ui m) |};
               log := log m |}).

Definition setForm (f : Form) : P unit :=
  fun m => (Return tt,
            {| ui := {| employees := employees (ui m); form := f; loading := loading (ui m);
                        error_message := error_message (ui m) |};
               log := log m |}).

Definition setLoading (b : bool) : P unit :=
  fun m => (Return tt,
            {| ui := {| employees := employees (ui m); form := form (ui m); loading := b;
                        error_message := error_message (ui m) |};
               log := log m |}).

Definition setError (e : option string) : P unit :=
  fun m => (Return tt,
            {| ui := {| employees := employees (ui m); form := form (ui m);
                        loading := loading (ui m); error_message := e |};
               log := log m |}).

(** What both helpers do with the reply once [fetch] has settled; the two
    differ in the request and in the name their warnings carry. *)
Definition read (helper path : string) (res : Response) : P json :=
  if negb (ok res) then
    bind (emit (Warn (helper ++ " " ++ path ++ " returned "
                        ++ string_of_Z (status res) ++ " " ++ statusText res)))
         (fun _ => ret JNull)
  else
    let contentType :=
      match content_type res with Some c => str_or c "" | None => "" end in
    if negb (includes contentType "application/json") then ret JNull
    else
      match body res with
      | Some j => ret j
      | None => bind (emit (Warn (helper ++ " parse error"))) (fun _ => ret JNull)
      end.

Definition apiGet (w : world) (path : string) : P json :=
  bind (emit (Get path)) (fun _ =>
  match get_reply w path with
  | NoReply => throw FetchError
  | Reply res => read "apiGet" path res
  end).

Definition apiPost (w : world) (path : string) (sent : option json) : P json :=
  bind (emit (Post path sent)) (fun _ =>
  match post_reply w path sent with
  | NoReply => throw FetchError
  | Reply res => read "apiPost" path res
  end).

(** [(res && res.results) || []]. *)
Definition rows_of (res : json) : json :=
  if truthy res then or_else (get res "results") (JArr []) else JArr [].

(** [Array.isArray(rows) ? rows : []]. *)
Definition array_or_empty (rows : json) : list json :=
  match rows with
  | JArr items => items
  | _ => []
  end.

Definition refresh (w : world) : P unit :=
  bind (setLoading true) (fun _ =>
  bind (setError None) (fun _ =>
  finally
    (try_catch
       (bind (apiGet w "/api/employees") (fun res =>
        setEmployees (array_or_empty (rows_of res))))
       (fun _ =>
        bind (emit (LogError "Failed to fetch employees")) (fun _ =>
        bind (setError (Some "Failed to load employees")) (fun _ =>
        setEmployees []))))
    (setLoading false))).

Definition submit (w : world) : P unit :=
  bind getForm (fun filled =>
  finally
    (try_catch
       (bind (apiPost w "/api/employees" (Some (form_json filled))) (fun _ => ret tt))
       (fun _ =>
        bind (emit (LogError "Failed to add employee")) (fun _ =>
        setError (Some "Failed to add employee"))))
    (bind (setForm blank) (fun _ => detached (refresh w)))).

(** The request the Worker receives for a submitted form. *)
Definition posted (f : Form) : Worker.Request :=
  {| Worker.method := "POST"; Worker.pathname := "/api/employees";
     Worker.query := []; Worker.payload := Some (form_json f) |}.

End EmployeePage.

(** ** List items of [UploadPage]

    [o.key.split('/').pop()]: the text after the last slash of a key. *)

(** [s.split(sep)] for a one-character separator. *)
Fixpoint split (sep : ascii) (s : string) : list string :=
  match s with
  | EmptyString => [EmptyString]
  | String c rest =>
      if Ascii.eqb c sep then EmptyString :: split sep rest
      else
        match split sep rest with
        | head :: tail => String c head :: tail
        | [] => [String c EmptyString]
        end
  end.

(** [a.pop()] on a fresh array: its last element. *)
Definition pop (a : list string) : option string :=
  match rev a with
  | x :: _ => Some x
  | [] => None
  end.

Definition shown_name (key : string) : option string := pop (split "/" key).

(** ** Replies on the wire *)

(** A JSON response of the Worker as [fetch] hands it to the page, the status
    text being the transport's.  Other bodies are not read by the pages'
    helpers and are not carried over. *)
Definition over_http (statusText : string) (r : Worker.Response) : option Response :=
  match Worker.body r with
  | Worker.Json j =>
      Some {| status := Worker.status r; statusText := statusText;
              content_type := Worker.content_type r; body := Some j |}
  | _ => None
  end.

Definition is_computable (ev : xhr_event) : bool :=
  match ev with
  | UploadProgress true _ _ => true
  | _ => false
  end.

(** * Properties *)

(** ** Binary64 arithmetic

    Facts about the Standard Library's specification of binary64 that the
    progress percentage needs: rounding to 53 bits is within one unit
    roundoff of the exact value. *)

(** [digits2_pos] counts the bits of a positive number. *)
Lemma digits2_pos_bounds (p : positive) :
  2 ^ (Z.pos (digits2_pos p) - 1) <= Z.pos p < 2 ^ Z.pos (digits2_pos p).
Proof.
  induction p as [p IH|p IH|]; simpl digits2_pos.
  - rewrite Pos2Z.inj_succ, (Pos2Z.inj_xI p).
    replace (Z.succ (Z.pos (digits2_pos p)) - 1) with (Z.succ (Z.pos (digits2_pos p) - 1)) by lia.
    rewrite !Z.pow_succ_r by lia.
    set (x := 2 ^ (Z.pos (digits2_pos p) - 1)) in *.
    set (y := 2 ^ Z.pos (digits2_pos p)) in *. lia.
  - rewrite Pos2Z.inj_succ, (Pos2Z.inj_xO p).
    replace (Z.succ (Z.pos (digits2_pos p)) - 1) with (Z.succ (Z.pos (digits2_pos p) - 1)) by lia.
    rewrite !Z.pow_succ_r by lia.
    set (x := 2 ^ (Z.pos (digits2_pos p) - 1)) in *.
    set (y := 2 ^ Z.pos (digits2_pos p)) in *. lia.
  - simpl. lia.
Qed.

Lemma digits2_pos_unique (p : positive) (k : Z) :
  2 ^ (k - 1) <= Z.pos p < 2 ^ k -> Z.pos (digits2_pos p) = k.
Proof.
  intros [A B]. pose proof (digits2_pos_bounds p) as [C D].
  assert (0 < k).
  { destruct (Z_lt_le_dec 0 k); [assumption|].
    destruct (Z.eq_dec k 0) as [->|]; [simpl in B; lia|].
    rewrite Z.pow_neg_r in B by lia. lia. }
  destruct (Z_lt_le_dec (Z.pos (digits2_pos p)) k) as [L|L].
  - assert (2 ^ Z.pos (digits2_pos p) <= 2 ^ (k - 1)) by (apply Z.pow_le_mono_r; lia). lia.
  - destruct (Z_lt_le_dec k (Z.pos (digits2_pos p))) as [L'|L']; [|lia].
    assert (2 ^ k <= 2 ^ (Z.pos (digits2_pos p) - 1)) by (apply Z.pow_le_mono_r; lia). lia.
Qed.

(** Doubling the divisor drops the last bit of the quotient into the
    remainder. *)
Lemma halve (N D m b : Z) :
  0 < D -> 0 <= b < 2 -> N / D = 2 * m + b ->
  N / (2 * D) = m /\ N mod (2 * D) = b * D + N mod D.
Proof.
  intros HD Hb E.
  pose proof (Z.div_mod N D ltac:(lia)) as S.
  pose proof (Z.mod_pos_bound N D HD) as B.
  rewrite E in S.
  assert (R : 0 <= b * D + N mod D < 2 * D) by nia.
  split.
  - symmetry. apply (Z.div_unique_pos N (2 * D) m (b * D + N mod D) R). nia.
  - symmetry. apply (Z.mod_unique_pos N (2 * D) m (b * D + N mod D) R). nia.
Qed.

(** One right shift keeps a record located, for twice the divisor. *)
Lemma shr_1_located (r : shr_record) (N D : Z) :
  0 <= N -> 0 < D -> located r N D -> located (shr_1 r) N (2 * D).
Proof.
  intros HN HD [Hm Hl]. destruct r as [m rb sb]. simpl in Hm.
  pose proof (Z.mod_pos_bound N D HD) as B.
  assert (P : 0 <= N / D) by (apply Z.div_pos; lia).
  assert (S : (orb rb sb = false -> N mod D = 0) /\ (orb rb sb = true -> 0 < N mod D)).
  { destruct rb, sb; cbv [loc_ok loc_of_shr_record] in Hl; cbn [orb];
    split; intros; try discriminate; lia. }
  destruct S as [S0 S1].
  unfold located.
  destruct m as [|[p|p|]|p]; try lia; simpl shr_1.
  - destruct (halve N D 0 0 HD ltac:(lia) ltac:(lia)) as [Q R].
    simpl shr_m. split; [lia|].
    destruct (orb rb sb); cbv [loc_ok loc_of_shr_record]; rewrite R;
      [specialize (S1 eq_refl)|specialize (S0 eq_refl)]; lia.
  - destruct (halve N D (Z.pos p) 1 HD ltac:(lia) ltac:(lia)) as [Q R].
    simpl shr_m. split; [lia|].
    destruct (orb rb sb); cbv [loc_ok loc_of_shr_record]; rewrite R;
      [specialize (S1 eq_refl)|specialize (S0 eq_refl)]; lia.
  - destruct (halve N D (Z.pos p) 0 HD ltac:(lia) ltac:(lia)) as [Q R].
    simpl shr_m. split; [lia|].
    destruct (orb rb sb); cbv [loc_ok loc_of_shr_record]; rewrite R;
      [specialize (S1 eq_refl)|specialize (S0 eq_refl)]; lia.
  - destruct (halve N D 0 1 HD ltac:(lia) ltac:(lia)) as [Q R].
    simpl shr_m. split; [lia|].
    destruct (orb rb sb); cbv [loc_ok loc_of_shr_record]; rewrite R;
      [specialize (S1 eq_refl)|specialize (S0 eq_refl)]; lia.
Qed.

Lemma pow2_xO (p : positive) : 2 ^ Z.pos p~0 = 2 ^ Z.pos p * 2 ^ Z.pos p.
Proof.
  replace (Z.pos p~0) with (Z.pos p + Z.pos p) by lia.
  apply Z.pow_add_r; lia.
Qed.

Lemma pow2_xI (p : positive) : 2 ^ Z.pos p~1 = 2 ^ Z.pos p * (2 ^ Z.pos p * 2).
Proof.
  replace (Z.pos p~1) with (Z.pos p + (Z.pos p + 1)) by lia.
  rewrite !Z.pow_add_r by lia. reflexivity.
Qed.

Lemma pow2_pos (k : Z) : 0 <= k -> 0 < 2 ^ k.
Proof. intros. apply Z.pow_pos_nonneg; lia. Qed.

Lemma iter_shr_located (p : positive) :
  forall (r : shr_record) (N D : Z),
    0 <= N -> 0 < D -> located r N D ->
    located (SpecFloat.iter_pos shr_1 p r) N (2 ^ Z.pos p * D).
Proof.
  induction p as [p IH|p IH|]; intros r N D HN HD L; simpl SpecFloat.iter_pos.
  - pose proof (pow2_pos (Z.pos p) ltac:(lia)) as P.
    apply shr_1_located in L; try assumption.
    apply IH in L; try lia. apply IH in L; try nia.
    rewrite pow2_xI.
    replace (2 ^ Z.pos p * (2 ^ Z.pos p * 2) * D)
      with (2 ^ Z.pos p * (2 ^ Z.pos p * (2 * D))) by ring.
    exact L.
  - pose proof (pow2_pos (Z.pos p) ltac:(lia)) as P.
    apply IH in L; try lia. apply IH in L; try nia.
    rewrite pow2_xO.
    replace (2 ^ Z.pos p * 2 ^ Z.pos p * D)
      with (2 ^ Z.pos p * (2 ^ Z.pos p * D)) by ring.
    exact L.
  - apply shr_1_located in L; assumption.
Qed.

Lemma fexp_normal (e : Z) : -1021 <= e -> fexp Number.prec Number.emax e = e - 53.
Proof. intros H. unfold fexp, emin, Number.prec, Number.emax. lia. Qed.

Lemma located_of_loc (m : Z) (l : location) (N D : Z) :
  m = N / D -> loc_ok l N D -> located (shr_record_of_loc m l) N D.
Proof.
  intros Hm Hl. split.
  - destruct l as [|[| |]]; exact Hm.
  - destruct l as [|[| |]]; exact Hl.
Qed.

Lemma Zdigits2_bounds (m : Z) :
  0 < m -> 2 ^ (Zdigits2 m - 1) <= m < 2 ^ Zdigits2 m.
Proof.
  destruct m as [|p|p]; try lia. intros _. apply digits2_pos_bounds.
Qed.

Lemma Zdigits2_unique (m k : Z) :
  2 ^ (k - 1) <= m < 2 ^ k -> 0 < m -> Zdigits2 m = k.
Proof.
  destruct m as [|p|p]; try lia. intros H _. apply digits2_pos_unique, H.
Qed.

Lemma shr_fexp_normal (m e : Z) (l : location) (N D : Z) :
  0 <= N -> 0 < D -> m = N / D -> loc_ok l N D ->
  53 <= Zdigits2 m -> -1074 <= e + Zdigits2 m - 53 ->
  exists r,
    shr_fexp Number.prec Number.emax m e l = (r, e + (Zdigits2 m - 53))
    /\ located r N (2 ^ (Zdigits2 m - 53) * D).
Proof.
  intros HN HD Hm Hl Hd He.
  unfold shr_fexp. rewrite fexp_normal by lia.
  replace (Zdigits2 m + e - 53 - e) with (Zdigits2 m - 53) by lia.
  pose proof (located_of_loc m l N D Hm Hl) as L.
  destruct (Zdigits2 m - 53) as [|p|p] eqn:E; try lia; unfold shr.
  - eexists. split; [f_equal; lia|].
    replace (2 ^ 0 * D) with D by (rewrite Z.pow_0_r; lia). exact L.
  - eexists. split; [reflexivity|]. apply iter_shr_located; assumption.
Qed.

(** Rounding to nearest even moves to a neighbour at most half a unit
    away. *)
Lemma round_nearest (m : Z) (l : location) (N D : Z) :
  0 < D -> m = N / D -> loc_ok l N D ->
  (round_nearest_even m l = m \/ round_nearest_even m l = m + 1)
  /\ 2 * Z.abs (N - round_nearest_even m l * D) <= D.
Proof.
  intros HD Hm Hl.
  pose proof (Z.div_mod N D ltac:(lia)) as S.
  pose proof (Z.mod_pos_bound N D HD) as B.
  rewrite <- Hm in S.
  destruct l as [|[| |]]; cbv [loc_ok] in Hl; cbv [round_nearest_even].
  - split; [left; reflexivity|]. nia.
  - destruct (Z.even m); (split; [tauto|]); nia.
  - split; [left; reflexivity|]. nia.
  - split; [right; reflexivity|]. nia.
Qed.

(** Rounding a value [N / D * 2^ex] whose integer part [mx] has at least 53
    bits, away from underflow and overflow. *)
Lemma binary_round_aux_normal (mx ex : Z) (lx : location) (N D : Z) :
  0 <= N -> 0 < D -> mx = N / D -> loc_ok lx N D ->
  53 <= Zdigits2 mx -> -1074 <= ex + Zdigits2 mx - 53 -> ex + Zdigits2 mx <= 1023 ->
  exists m e,
    binary_round_aux Number.prec Number.emax false mx ex lx = S754_finite false m e
    /\ 2 ^ 52 <= Z.pos m < 2 ^ 53
    /\ ex + Zdigits2 mx - 53 <= e <= ex + Zdigits2 mx - 52
    /\ 2 * Z.abs (N - Z.pos m * 2 ^ (e - ex) * D) <= 2 ^ (Zdigits2 mx - 53) * D.
Proof.
  intros HN HD Hm Hl Hd Hlo Hhi.
  set (n := Zdigits2 mx - 53) in *.
  assert (Hmx : 0 < mx).
  { destruct mx; simpl in Hd; try lia.
    assert (0 <= N / D) by (apply Z.div_pos; lia). lia. }
  pose proof (Zdigits2_bounds mx Hmx) as [Blo Bhi].
  pose proof (pow2_pos n ltac:(lia)) as Pn.
  destruct (shr_fexp_normal mx ex lx N D HN HD Hm Hl Hd ltac:(lia)) as (r1 & E1 & L1).
  fold n in E1, L1.
  unfold binary_round_aux. rewrite E1.
  destruct L1 as [M1 K1].
  assert (D1 : 0 < 2 ^ n * D) by nia.
  destruct (round_nearest (shr_m r1) (loc_of_shr_record r1) N (2 ^ n * D) D1 M1 K1)
    as [R1 A1].
  set (m1 := round_nearest_even (shr_m r1) (loc_of_shr_record r1)) in *.
  (* the truncated mantissa has exactly 53 bits *)
  assert (T : 2 ^ 52 <= shr_m r1 < 2 ^ 53).
  { rewrite M1. rewrite Z.mul_comm, <- Z.div_div by lia. rewrite <- Hm.
    replace (Zdigits2 mx - 1) with (52 + n) in Blo by (unfold n; lia).
    replace (Zdigits2 mx) with (53 + n) in Bhi by (unfold n; lia).
    rewrite Z.pow_add_r in Blo, Bhi by lia.
    split.
    - apply Z.div_le_lower_bound; lia.
    - apply Z.div_lt_upper_bound; lia. }
  assert (T1 : 2 ^ 52 <= m1 <= 2 ^ 53) by lia.
  destruct (Z.eq_dec m1 (2 ^ 53)) as [Top|NotTop].
  - (* rounding carried into a 54th bit: one more shift *)
    rewrite Top.
    replace (shr_fexp Number.prec Number.emax (2 ^ 53) (ex + n) loc_Exact)
      with ({| shr_m := 2 ^ 52; shr_r := false; shr_s := false |}, ex + n + 1).
    2:{ unfold shr_fexp. rewrite fexp_normal by (simpl Zdigits2; lia).
        simpl Zdigits2. replace (54 + (ex + n) - 53 - (ex + n)) with 1 by lia.
        reflexivity. }
    cbv [shr_m]. change (2 ^ 52) with (Z.pos (2 ^ 52)).
    replace (ex + n + 1 <=? Number.emax - Number.prec) with true
      by (symmetry; apply Z.leb_le; unfold Number.emax, Number.prec, n; lia).
    eexists _, _. split; [reflexivity|].
    split; [split; [lia | reflexivity]|].
    split; [unfold n; lia|].
    replace (ex + n + 1 - ex) with (n + 1) by lia.
    rewrite Z.pow_add_r, Z.pow_1_r by lia.
    rewrite Top in A1.
    change (Z.pos (2 ^ 52)) with (2 ^ 52).
    replace (2 ^ 52 * (2 ^ n * 2) * D) with (2 ^ 53 * (2 ^ n * D)); [exact A1|].
    change (2 ^ 53) with (2 ^ 52 * 2). ring.
  - assert (Dg : Zdigits2 m1 = 53).
    { apply Zdigits2_unique; [|lia]. change (53 - 1) with 52. lia. }
    destruct (shr_fexp_normal m1 (ex + n) loc_Exact m1 1 ltac:(lia) ltac:(lia)
                ltac:(rewrite Z.div_1_r; reflexivity)
                ltac:(cbv [loc_ok]; apply Z.mod_1_r)
                ltac:(lia) ltac:(lia)) as (r2 & E2 & L2).
    rewrite E2. rewrite Dg in *.
    destruct L2 as [M2 _]. change (53 - 53) with 0 in M2.
    rewrite Z.pow_0_r, Z.mul_1_l, Z.div_1_r in M2. rewrite M2.
    destruct m1 as [|pm|pm] eqn:Em; try lia.
    replace (ex + n + (53 - 53) <=? Number.emax - Number.prec) with true
      by (symmetry; apply Z.leb_le; unfold Number.emax, Number.prec, n; lia).
    eexists _, _. split; [reflexivity|].
    split; [lia|]. split; [unfold n; lia|].
    replace (ex + n + (53 - 53) - ex) with n by lia.
    replace (Z.pos pm * 2 ^ n * D) with (Z.pos pm * (2 ^ n * D)) by ring.
    exact A1.
Qed.

Lemma IZR_pow2 (k : Z) : 0 <= k -> IZR (2 ^ k) = powerRZ 2 k.
Proof.
  intros H. destruct k as [|p|p]; try lia.
  - reflexivity.
  - change (2 ^ Z.pos p) with (Z.pow_pos 2 p). apply Zpower_pos_powerRZ.
Qed.

Lemma pow2R_pos (k : Z) : (0 < powerRZ 2 k)%R.
Proof. apply powerRZ_lt. lra. Qed.

Lemma pow2R_add (a b : Z) : powerRZ 2 (a + b) = (powerRZ 2 a * powerRZ 2 b)%R.
Proof. apply powerRZ_add. lra. Qed.

(** The unit roundoff form of [binary_round_aux_normal]. *)
Lemma binary_round_aux_R (mx ex : Z) (lx : location) (N D : Z) :
  0 <= N -> 0 < D -> mx = N / D -> loc_ok lx N D ->
  53 <= Zdigits2 mx -> -1074 <= ex + Zdigits2 mx - 53 -> ex + Zdigits2 mx <= 1023 ->
  exists m e,
    binary_round_aux Number.prec Number.emax false mx ex lx = S754_finite false m e
    /\ 2 ^ 52 <= Z.pos m < 2 ^ 53
    /\ ex + Zdigits2 mx - 53 <= e <= ex + Zdigits2 mx - 52
    /\ (Rabs (F2R (Z.pos m) e - IZR N / IZR D * powerRZ 2 ex)
        <= IZR N / IZR D * powerRZ 2 ex * eps)%R.
Proof.
  intros HN HD Hm Hl Hd Hlo Hhi.
  destruct (binary_round_aux_normal mx ex lx N D HN HD Hm Hl Hd Hlo Hhi)
    as (m & e & E & Bm & Be & A).
  exists m, e. repeat (split; [assumption|]).
  set (n := Zdigits2 mx - 53) in *.
  assert (Hmx : 0 < mx).
  { destruct mx; simpl in Hd; try lia.
    assert (0 <= N / D) by (apply Z.div_pos; lia). lia. }
  pose proof (Zdigits2_bounds mx Hmx) as [Blo _].
  replace (Zdigits2 mx - 1) with (52 + n) in Blo by (unfold n; lia).
  rewrite Z.pow_add_r in Blo by (unfold n; lia).
  (* N >= mx * D >= 2^52 * 2^n * D *)
  assert (HND : mx * D <= N).
  { rewrite Hm. pose proof (Z.mul_div_le N D HD). lia. }
  apply IZR_le in A, HND, Blo.
  rewrite mult_IZR, abs_IZR, minus_IZR, !mult_IZR in A.
  rewrite (IZR_pow2 (e - ex)), (IZR_pow2 n) in A by (unfold n; lia).
  rewrite mult_IZR in HND.
  rewrite mult_IZR, (IZR_pow2 n) in Blo by (unfold n; lia).
  assert (PD : (0 < IZR D)%R) by (apply IZR_lt; lia).
  pose proof (pow2R_pos ex) as Pex. pose proof (pow2R_pos n) as Pn.
  pose proof (pow2R_pos (e - ex)) as Pee.
  unfold F2R.
  replace (powerRZ 2 e) with (powerRZ 2 (e - ex) * powerRZ 2 ex)%R
    by (rewrite <- pow2R_add; f_equal; lia).
  set (X := (IZR (Z.pos m) * powerRZ 2 (e - ex))%R) in *.
  replace (IZR (Z.pos m) * (powerRZ 2 (e - ex) * powerRZ 2 ex)
           - IZR N / IZR D * powerRZ 2 ex)%R
    with ((X * IZR D - IZR N) / IZR D * powerRZ 2 ex)%R
    by (unfold X; field; lra).
  unfold Rdiv. rewrite !Rabs_mult.
  rewrite (Rabs_pos_eq (powerRZ 2 ex)) by lra.
  rewrite (Rabs_pos_eq (/ IZR D)) by (left; apply Rinv_0_lt_compat; assumption).
  rewrite Rabs_minus_sym.
  (* 2 |N - X D| <= 2^n D  and  2^53 2^n D <= 2 N *)
  assert (U : (eps * IZR (2 ^ 53) = 1)%R).
  { unfold eps. apply Rinv_l. apply not_0_IZR. lia. }
  change (IZR (2 ^ 52)) with (IZR 4503599627370496) in Blo.
  change (IZR (2 ^ 53)) with (IZR 9007199254740992) in U.
  assert (Pu : (0 < eps)%R).
  { unfold eps. apply Rinv_0_lt_compat. apply IZR_lt. lia. }
  assert (K : (Rabs (IZR N - X * IZR D) <= IZR N * eps)%R).
  { assert (powerRZ 2 n * IZR D <= 2 * IZR N * eps)%R; [|lra].
    assert (S : (4503599627370496 * powerRZ 2 n * IZR D <= IZR N)%R) by nra.
    assert (S' : (eps * (9007199254740992 * (powerRZ 2 n * IZR D))
                  <= eps * (2 * IZR N))%R)
      by (apply Rmult_le_compat_l; lra).
    replace (eps * (9007199254740992 * (powerRZ 2 n * IZR D)))%R
      with ((eps * 9007199254740992) * (powerRZ 2 n * IZR D))%R in S' by ring.
    rewrite U in S'. lra. }
  assert (ID : (0 < / IZR D)%R) by (apply Rinv_0_lt_compat; assumption).
  replace (IZR N * / IZR D * powerRZ 2 ex * eps)%R
    with ((IZR N * eps) * / IZR D * powerRZ 2 ex)%R by ring.
  apply Rmult_le_compat_r; [lra|]. apply Rmult_le_compat_r; lra.
Qed.

Lemma iter_xO (k p : positive) : Z.pos (Pos.iter xO p k) = Z.pos p * 2 ^ Z.pos k.
Proof.
  induction k as [|k IH] using Pos.peano_ind.
  - simpl. lia.
  - rewrite Pos.iter_succ, Pos2Z.inj_succ, Z.pow_succ_r by lia.
    rewrite (Pos2Z.inj_xO (Pos.iter xO p k)), IH. ring.
Qed.

Lemma normal_digits (m : positive) : normal m -> Zdigits2 (Z.pos m) = 53.
Proof. intros H. apply Zdigits2_unique; [exact H | lia]. Qed.

Lemma Zdigits2_le (m : Z) (k : Z) : 0 < m -> m < 2 ^ k -> 0 <= k -> Zdigits2 m <= k.
Proof.
  intros Hm H Hk. pose proof (Zdigits2_bounds m Hm) as [A _].
  destruct (Z_le_gt_dec (Zdigits2 m) k) as [L|G]; [exact L|].
  assert (2 ^ k <= 2 ^ (Zdigits2 m - 1)) by (apply Z.pow_le_mono_r; lia). lia.
Qed.

Lemma Zdigits2_ge (m : Z) (k : Z) : 2 ^ (k - 1) <= m -> 0 < m -> k <= Zdigits2 m.
Proof.
  intros H Hm. pose proof (Zdigits2_bounds m Hm) as [_ B].
  destruct (Z_le_gt_dec k (Zdigits2 m)) as [L|G]; [exact L|].
  assert (0 <= Zdigits2 m) by (destruct m; simpl; lia).
  assert (2 ^ Zdigits2 m <= 2 ^ (k - 1)) by (apply Z.pow_le_mono_r; lia). lia.
Qed.

(** Conversion of a positive integer below 2^64. *)
Lemma of_Z_spec (l : Z) :
  0 < l < 2 ^ 64 ->
  exists m e,
    Number.of_Z l = S754_finite false m e
    /\ normal m
    /\ -52 <= e <= 12
    /\ (Rabs (F2R (Z.pos m) e - IZR l) <= IZR l * eps)%R
    /\ (l < 2 ^ 53 -> F2R (Z.pos m) e = IZR l).
Proof.
  intros [Hl Hu]. destruct l as [|p|p]; try lia.
  unfold Number.of_Z, binary_normalize, binary_round.
  pose proof (digits2_pos_bounds p) as [Dlo Dhi].
  set (d := Z.pos (digits2_pos p)) in *.
  assert (Hd : d <= 64).
  { apply (Zdigits2_le (Z.pos p) 64); lia. }
  rewrite fexp_normal by lia.
  unfold shl_align. replace (d + 0 - 53 - 0) with (d - 53) by lia.
  destruct (d - 53) as [|k|k] eqn:Ek.
  - (* exactly 53 bits *)
    assert (D53 : Zdigits2 (Z.pos p) = 53)
      by (change (Zdigits2 (Z.pos p)) with d; lia).
    destruct (binary_round_aux_normal (Z.pos p) 0 loc_Exact (Z.pos p) 1
                ltac:(lia) ltac:(lia) ltac:(rewrite Z.div_1_r; reflexivity)
                ltac:(cbv [loc_ok]; apply Z.mod_1_r)
                ltac:(lia) ltac:(lia) ltac:(lia)) as (m & e & E & Bm & Be & A).
    exists m, e. rewrite D53 in *. split; [exact E|]. split; [exact Bm|].
    split; [lia|].
    change (2 ^ (53 - 53)) with 1 in A.
    assert (X : Z.pos p = Z.pos m * 2 ^ (e - 0)) by lia.
    assert (V : F2R (Z.pos m) e = IZR (Z.pos p)).
    { unfold F2R. rewrite X, mult_IZR, IZR_pow2 by lia. do 2 f_equal. lia. }
    split; [|intros _; exact V].
    rewrite V. replace (IZR (Z.pos p) - IZR (Z.pos p))%R with 0%R by ring.
    rewrite Rabs_R0. apply Rmult_le_pos; [apply IZR_le; lia|].
    unfold eps. left. apply Rinv_0_lt_compat, IZR_lt. lia.
  - (* more than 53 bits: rounded *)
    assert (Dp : Zdigits2 (Z.pos p) = 53 + Z.pos k)
      by (change (Zdigits2 (Z.pos p)) with d; lia).
    destruct (binary_round_aux_R (Z.pos p) 0 loc_Exact (Z.pos p) 1
                ltac:(lia) ltac:(lia) ltac:(rewrite Z.div_1_r; reflexivity)
                ltac:(cbv [loc_ok]; apply Z.mod_1_r)
                ltac:(lia) ltac:(lia) ltac:(lia)) as (m & e & E & Bm & Be & A).
    exists m, e. rewrite Dp in *. split; [exact E|]. split; [exact Bm|].
    split; [lia|].
    replace (IZR (Z.pos p) / IZR 1 * powerRZ 2 0)%R with (IZR (Z.pos p)) in A
      by (simpl; field).
    split; [exact A|]. intros Hs.
    assert (d <= 53) by (apply (Zdigits2_le (Z.pos p) 53); lia). lia.
  - (* fewer than 53 bits: shifted left, exact *)
    pose proof (iter_xO k p) as Hz.
    set (mz := Pos.iter xO p k) in *.
    assert (Dz : Zdigits2 (Z.pos mz) = 53).
    { apply Zdigits2_unique; [|lia]. rewrite Hz.
      assert (Ed : d = 53 - Z.pos k) by lia.
      assert (P1 : 2 ^ (d - 1) * 2 ^ Z.pos k = 2 ^ (53 - 1)).
      { rewrite <- Z.pow_add_r by lia. f_equal. lia. }
      assert (P2 : 2 ^ d * 2 ^ Z.pos k = 2 ^ 53).
      { rewrite <- Z.pow_add_r by lia. f_equal. lia. }
      pose proof (pow2_pos (Z.pos k) ltac:(lia)).
      rewrite <- P1, <- P2. nia. }
    destruct (binary_round_aux_normal (Z.pos mz) (d + 0 - 53) loc_Exact (Z.pos mz) 1
                ltac:(lia) ltac:(lia) ltac:(rewrite Z.div_1_r; reflexivity)
                ltac:(cbv [loc_ok]; apply Z.mod_1_r)
                ltac:(lia) ltac:(lia) ltac:(lia)) as (m & e & E & Bm & Be & A).
    exists m, e. rewrite Dz in *. split; [exact E|]. split; [exact Bm|].
    split; [lia|].
    change (2 ^ (53 - 53)) with 1 in A.
    assert (X : Z.pos mz = Z.pos m * 2 ^ (e - (d + 0 - 53))) by lia.
    assert (V : F2R (Z.pos m) e = IZR (Z.pos p)).
    { unfold F2R.
      assert (Ee : e = d + 0 - 53).
      { destruct (Z.eq_dec e (d + 0 - 53)) as [->|Ne]; [reflexivity|].
        replace (e - (d + 0 - 53)) with 1 in X by lia.
        unfold normal in Bm. change (2 ^ 1) with 2 in X.
        pose proof (Zdigits2_bounds (Z.pos mz) ltac:(lia)) as [_ T].
        rewrite Dz in T. lia. }
      rewrite Ee in X. replace (d + 0 - 53 - (d + 0 - 53)) with 0 in X by lia.
      rewrite Z.pow_0_r, Z.mul_1_r in X. rewrite <- X, Hz, mult_IZR, IZR_pow2 by lia.
      rewrite Ee. rewrite Rmult_assoc, <- pow2R_add.
      replace (Z.pos k + (d + 0 - 53)) with 0 by lia. simpl. ring. }
    split; [|intros _; exact V].
    rewrite V. replace (IZR (Z.pos p) - IZR (Z.pos p))%R with 0%R by ring.
    rewrite Rabs_R0. apply Rmult_le_pos; [apply IZR_le; lia|].
    unfold eps. left. apply Rinv_0_lt_compat, IZR_lt. lia.
Qed.

(** The location computed by the division is the one of the remainder. *)
Lemma new_location_ok (nb N : Z) :
  0 < nb -> loc_ok (new_location nb (N mod nb)) N nb.
Proof.
  intros H. pose proof (Z.mod_pos_bound N nb H) as B.
  unfold new_location, new_location_even, new_location_odd.
  destruct (Z.even nb) eqn:Ev.
  - destruct (Z.eqb_spec (N mod nb) 0) as [e|n]; [exact e|].
    destruct (Z.compare_spec (2 * (N mod nb)) nb); cbv [loc_ok]; lia.
  - destruct (Z.eqb_spec (N mod nb) 0) as [e|n]; [exact e|].
    assert (Od : Z.odd nb = true) by (rewrite <- Z.negb_even, Ev; reflexivity).
    apply Z.odd_spec in Od. destruct Od as [h Od].
    destruct (Z.compare_spec (2 * (N mod nb) + 1) nb); cbv [loc_ok]; lia.
Qed.

Lemma F2R_pos (m : positive) (e : Z) : (0 < F2R (Z.pos m) e)%R.
Proof.
  unfold F2R. apply Rmult_lt_0_compat; [apply IZR_lt; lia | apply pow2R_pos].
Qed.

(** Division of two positive normal floats, away from underflow and
    overflow. *)
Lemma div_spec (ma mb : positive) (ea eb : Z) :
  normal ma -> normal mb -> -400 <= ea <= 400 -> -400 <= eb <= 400 ->
  exists m e,
    Number.div (S754_finite false ma ea) (S754_finite false mb eb)
    = S754_finite false m e
    /\ normal m
    /\ ea - eb - 53 <= e <= ea - eb - 51
    /\ (Rabs (F2R (Z.pos m) e - F2R (Z.pos ma) ea / F2R (Z.pos mb) eb)
        <= F2R (Z.pos ma) ea / F2R (Z.pos mb) eb * eps)%R.
Proof.
  intros Na Nb Ha Hb.
  unfold Number.div, SFdiv, SFdiv_core_binary.
  rewrite (normal_digits ma Na), (normal_digits mb Nb).
  rewrite fexp_normal by lia.
  replace (Z.min (53 + ea - (53 + eb) - 53) (ea - eb))
    with (ea - eb - 53) by lia.
  replace (ea - eb - (ea - eb - 53)) with 53 by lia.
  rewrite Z.shiftl_mul_pow2 by lia.
  set (N := Z.pos ma * 2 ^ 53).
  pose proof (Z.div_mod N (Z.pos mb) ltac:(lia)) as S.
  pose proof (Z.mod_pos_bound N (Z.pos mb) ltac:(lia)) as B.
  assert (Eq : Z.div_eucl N (Z.pos mb) = (N / Z.pos mb, N mod Z.pos mb)).
  { unfold Z.div, Z.modulo. destruct (Z.div_eucl N (Z.pos mb)). reflexivity. }
  rewrite Eq.
  unfold normal in Na, Nb.
  assert (Q : 2 ^ 52 <= N / Z.pos mb < 2 ^ 54).
  { split.
    - apply Z.div_le_lower_bound; [lia|]. unfold N. lia.
    - apply Z.div_lt_upper_bound; [lia|]. unfold N. lia. }
  assert (D1 : 53 <= Zdigits2 (N / Z.pos mb)) by (apply Zdigits2_ge; lia).
  assert (D2 : Zdigits2 (N / Z.pos mb) <= 54) by (apply Zdigits2_le; lia).
  destruct (binary_round_aux_R (N / Z.pos mb) (ea - eb - 53)
              (new_location (Z.pos mb) (N mod Z.pos mb)) N (Z.pos mb)
              ltac:(unfold N; lia) ltac:(lia) eq_refl
              (new_location_ok (Z.pos mb) N ltac:(lia))
              D1 ltac:(lia) ltac:(lia)) as (m & e & E & Bm & Be & A).
  exists m, e. split; [exact E|]. split; [exact Bm|]. split; [lia|].
  replace (F2R (Z.pos ma) ea / F2R (Z.pos mb) eb)%R
    with (IZR N / IZR (Z.pos mb) * powerRZ 2 (ea - eb - 53))%R; [exact A|].
  unfold F2R, N. rewrite mult_IZR, IZR_pow2 by lia.
  replace ea with ((ea - eb - 53) + 53 + eb) at 2 by lia.
  rewrite !pow2R_add.
  pose proof (pow2R_pos eb). pose proof (pow2R_pos 53).
  assert (0 < IZR (Z.pos mb))%R by (apply IZR_lt; lia).
  field. split; lra.
Qed.

(** Multiplication of two positive normal floats, away from underflow and
    overflow. *)
Lemma mul_spec (ma mb : positive) (ea eb : Z) :
  normal ma -> normal mb -> -400 <= ea <= 400 -> -400 <= eb <= 400 ->
  exists m e,
    Number.mul (S754_finite false ma ea) (S754_finite false mb eb)
    = S754_finite false m e
    /\ normal m
    /\ ea + eb + 52 <= e <= ea + eb + 54
    /\ (Rabs (F2R (Z.pos m) e - F2R (Z.pos ma) ea * F2R (Z.pos mb) eb)
        <= F2R (Z.pos ma) ea * F2R (Z.pos mb) eb * eps)%R.
Proof.
  intros Na Nb Ha Hb.
  unfold Number.mul, SFmul. unfold normal in Na, Nb.
  set (N := Z.pos (ma * mb)).
  assert (EN : N = Z.pos ma * Z.pos mb) by (unfold N; lia).
  assert (Q : 2 ^ 104 <= N < 2 ^ 106).
  { rewrite EN. change (2 ^ 104) with (2 ^ 52 * 2 ^ 52).
    change (2 ^ 106) with (2 ^ 53 * 2 ^ 53). nia. }
  assert (D1 : 105 <= Zdigits2 N) by (apply Zdigits2_ge; lia).
  assert (D2 : Zdigits2 N <= 106) by (apply Zdigits2_le; lia).
  destruct (binary_round_aux_R N (ea + eb) loc_Exact N 1
              ltac:(lia) ltac:(lia) ltac:(rewrite Z.div_1_r; reflexivity)
              ltac:(cbv [loc_ok]; apply Z.mod_1_r)
              ltac:(lia) ltac:(lia) ltac:(lia)) as (m & e & E & Bm & Be & A).
  exists m, e. split; [exact E|]. split; [exact Bm|]. split; [lia|].
  replace (F2R (Z.pos ma) ea * F2R (Z.pos mb) eb)%R
    with (IZR N / IZR 1 * powerRZ 2 (ea + eb))%R; [exact A|].
  unfold F2R. rewrite EN, mult_IZR, pow2R_add. field.
Qed.

(** [Number.round_Z] is [floor (x + 1/2)]. *)
Lemma round_Z_spec (m : positive) (e : Z) :
  exists z,
    Number.round_Z (S754_finite false m e) = Some z
    /\ (IZR z <= F2R (Z.pos m) e + / 2 < IZR z + 1)%R.
Proof.
  unfold Number.round_Z, F2R. destruct (Z.leb_spec 0 e) as [P|Ng].
  - eexists. split; [reflexivity|].
    rewrite mult_IZR, IZR_pow2 by lia. lra.
  - eexists. split; [reflexivity|].
    set (k := - e). assert (Hk : 0 < k) by (unfold k; lia).
    pose proof (pow2_pos (k + 1) ltac:(lia)) as P1.
    pose proof (Z.div_mod (2 * Z.pos m + 2 ^ k) (2 ^ (k + 1)) ltac:(lia)) as S.
    pose proof (Z.mod_pos_bound (2 * Z.pos m + 2 ^ k) (2 ^ (k + 1)) P1) as B.
    set (z := (2 * Z.pos m + 2 ^ k) / 2 ^ (k + 1)) in *.
    assert (Lo : 2 ^ (k + 1) * z <= 2 * Z.pos m + 2 ^ k) by lia.
    assert (Hi : 2 * Z.pos m + 2 ^ k < 2 ^ (k + 1) * (z + 1)) by lia.
    rewrite Z.pow_add_r, Z.pow_1_r in Lo, Hi by lia.
    apply IZR_le in Lo. apply IZR_lt in Hi.
    rewrite !mult_IZR, !plus_IZR, !mult_IZR, !IZR_pow2 in Lo by lia.
    rewrite !mult_IZR, !plus_IZR, !mult_IZR, !IZR_pow2 in Hi by lia.
    replace (powerRZ 2 e) with (/ powerRZ 2 k)%R
      by (unfold k; rewrite powerRZ_neg', Rinv_inv; reflexivity).
    pose proof (pow2R_pos k) as Pk.
    assert (I : (/ powerRZ 2 k * powerRZ 2 k = 1)%R) by (apply Rinv_l; lra).
    assert (Ik : (0 < / powerRZ 2 k)%R) by (apply Rinv_0_lt_compat; lra).
    split.
    + apply (Rmult_le_reg_r (2 * powerRZ 2 k)); [lra|].
      replace ((IZR (Z.pos m) * / powerRZ 2 k + / 2) * (2 * powerRZ 2 k))%R
        with (2 * IZR (Z.pos m) * (/ powerRZ 2 k * powerRZ 2 k) + powerRZ 2 k)%R
        by (field; lra).
      rewrite I. lra.
    + apply (Rmult_lt_reg_r (2 * powerRZ 2 k)); [lra|].
      replace ((IZR (Z.pos m) * / powerRZ 2 k + / 2) * (2 * powerRZ 2 k))%R
        with (2 * IZR (Z.pos m) * (/ powerRZ 2 k * powerRZ 2 k) + powerRZ 2 k)%R
        by (field; lra).
      rewrite I. lra.
Qed.

Lemma eps_val : eps = (/ 9007199254740992)%R.
Proof. reflexivity. Qed.

Lemma Rabs_le_both (x y : R) : (Rabs x <= y -> - y <= x <= y)%R.
Proof. unfold Rabs. destruct (Rcase_abs x); lra. Qed.

(** The value Math.round returns for a positive float. *)
Lemma Math_round_pos (m : positive) (e : Z) (z : Z) :
  Number.round_Z (S754_finite false m e) = Some z -> 0 <= z ->
  Number.Math_round (S754_finite false m e) = Number.of_Z z.
Proof.
  intros H Hz. unfold Number.Math_round. rewrite H.
  destruct z as [|p|p]; try lia; reflexivity.
Qed.

Section Percent.

Variables loaded total : Z.
Hypothesis loaded_pos : 0 < loaded.
Hypothesis loaded_le : loaded <= total.
Hypothesis total_lt : total < 2 ^ 64.

Let L := IZR loaded.
Let T := IZR total.

(** The float that [Math.round] receives, with the error it carries. *)
Lemma product_spec :
  exists m e,
    Number.mul (Number.div (Number.of_Z loaded) (Number.of_Z total)) (Number.of_Z 100)
    = S754_finite false m e
    /\ (F2R (Z.pos m) e <= 100 * (1 + 5 * eps))%R
    /\ (total < 2 ^ 53 ->
        (Rabs (F2R (Z.pos m) e - 100 * (L / T)) <= 100 * (2 * eps + eps * eps))%R).
Proof.
  destruct (of_Z_spec loaded ltac:(lia)) as (ma & ea & Ea & Na & Ba & Ra & Xa).
  destruct (of_Z_spec total ltac:(lia)) as (mb & eb & Eb & Nb & Bb & Rb & Xb).
  destruct (of_Z_spec 100 ltac:(lia)) as (mc & ec & Ec & Nc & Bc & _ & Xc).
  specialize (Xc ltac:(lia)).
  destruct (div_spec ma mb ea eb Na Nb ltac:(lia) ltac:(lia))
    as (mq & eq & Eq & Nq & Bq & Rq).
  destruct (mul_spec mq mc eq ec Nq Nc ltac:(lia) ltac:(lia))
    as (mp & ep & Ep & Np & Bp & Rp).
  exists mp, ep. rewrite Ea, Eb, Ec, Eq. split; [exact Ep|].
  rewrite Xc in Rp.
  pose proof (F2R_pos ma ea) as Pa. pose proof (F2R_pos mb eb) as Pb.
  pose proof (F2R_pos mq eq) as Pq. pose proof (F2R_pos mp ep) as Pp.
  set (A := F2R (Z.pos ma) ea) in *. set (B := F2R (Z.pos mb) eb) in *.
  set (Q := F2R (Z.pos mq) eq) in *. set (P := F2R (Z.pos mp) ep) in *.
  assert (HL : (0 < L)%R) by (apply IZR_lt; lia).
  assert (HLT : (L <= T)%R) by (apply IZR_le; lia).
  fold L in Ra, Xa. fold T in Rb, Xb.
  apply Rabs_le_both in Ra, Rb, Rq, Rp.
  pose proof eps_val as Hu.
  assert (Iq : (A / B * B = A)%R) by (field; lra).
  set (r := (A / B)%R) in *.
  assert (Hr : (0 < r)%R) by (unfold r; apply Rdiv_lt_0_compat; lra).
  split.
  - (* r <= (1 + eps) / (1 - eps) <= 1 + 3 eps *)
    assert (R1 : (r * (T * (1 - eps)) <= T * (1 + eps))%R).
    { assert (r * (T * (1 - eps)) <= r * B)%R
        by (apply Rmult_le_compat_l; nra). nra. }
    assert (R2 : (r <= 1 + 3 * eps)%R).
    { apply (Rmult_le_reg_r (T * (1 - eps))); [nra|].
      assert (T * (1 + eps) <= (1 + 3 * eps) * (T * (1 - eps)))%R; [|lra].
      assert (0 <= T * (eps * (1 - 3 * eps)))%R by (apply Rmult_le_pos; nra).
      nra. }
    assert (Q1 : (Q <= (1 + 3 * eps) * (1 + eps))%R) by nra.
    assert (P1 : (P <= 100 * ((1 + 3 * eps) * (1 + eps)) * (1 + eps))%R) by nra.
    nra.
  - intros Hs.
    assert (Er : r = (L / T)%R)
      by (unfold r; rewrite Xa, Xb by lia; reflexivity).
    rewrite <- Er. rewrite Xa, Xb in Iq by lia.
    assert (Su : (0 < eps < / 1000)%R) by lra.
    assert (r <= 1)%R.
    { apply (Rmult_le_reg_r T); lra. }
    apply Rabs_le. split; nra.
Qed.

End Percent.

Lemma of_Z_finite (t : Z) :
  0 < t < 2 ^ 64 -> exists m e, Number.of_Z t = S754_finite false m e.
Proof.
  intros H. destruct (of_Z_spec t H) as (m & e & E & _). exists m, e. exact E.
Qed.

(** The percentage is an integer of [0,100], and for totals up to 2^44 one
    of the integers nearest to [100 * loaded / total]. *)
Lemma percent_spec (loaded total : Z) :
  0 <= loaded <= total -> 0 < total < 2 ^ 64 ->
  exists z,
    percent loaded total = Number.of_Z z
    /\ 0 <= z <= 100
    /\ (total <= 2 ^ 44 -> Z.abs (200 * loaded - 2 * z * total) <= total).
Proof.
  intros [Hl Hlt] [Ht Htu].
  destruct (Z.eq_dec loaded 0) as [->|Nz].
  - exists 0. destruct (of_Z_finite total ltac:(lia)) as (mb & eb & Eb).
    destruct (of_Z_finite 100 ltac:(lia)) as (mc & ec & Ec).
    unfold percent. rewrite Eb, Ec. split; [reflexivity|]. lia.
  - destruct (product_spec loaded total ltac:(lia) Hlt Htu) as (m & e & E & Hi & Er).
    destruct (round_Z_spec m e) as (z & Ez & Lo & Up).
    pose proof (F2R_pos m e) as Pp.
    pose proof eps_val as Hu.
    set (P := F2R (Z.pos m) e) in *.
    assert (Hz : 0 <= z <= 100).
    { split.
      - assert (IZR (-1) < IZR z)%R by lra. apply lt_IZR in H. lia.
      - assert (IZR z < IZR 101)%R by lra. apply lt_IZR in H. lia. }
    exists z. split; [|split; [exact Hz|]].
    + unfold percent. rewrite E. apply Math_round_pos; [exact Ez | lia].
    + intros Hs. specialize (Er ltac:(lia)).
      apply Rabs_le_both in Er.
      assert (HT : (0 < IZR total <= 17592186044416)%R).
      { split; [apply IZR_lt; lia|]. apply IZR_le. lia. }
      assert (HL : (0 < IZR loaded)%R) by (apply IZR_lt; lia).
      set (x := (IZR loaded / IZR total)%R) in *.
      assert (Ex : (x * IZR total = IZR loaded)%R) by (unfold x; field; lra).
      set (T := IZR total) in *. set (L := IZR loaded) in *.
      assert (A1 : ((2 * IZR z - 1) * T < 200 * L + 1)%R).
      { assert ((2 * IZR z - 1) * T <= (200 * x + 2 * (100 * (2 * eps + eps * eps))) * T)%R
          by (apply Rmult_le_compat_r; lra).
        nra. }
      assert (A2 : (200 * L < (2 * IZR z + 1) * T + 1)%R).
      { assert ((200 * x - 2 * (100 * (2 * eps + eps * eps))) * T <= (2 * IZR z + 1) * T)%R
          by (apply Rmult_le_compat_r; lra).
        nra. }
      assert (B1 : (2 * z - 1) * total < 200 * loaded + 1).
      { apply lt_IZR. rewrite plus_IZR, !mult_IZR, minus_IZR, mult_IZR. exact A1. }
      assert (B2 : 200 * loaded < (2 * z + 1) * total + 1).
      { apply lt_IZR. rewrite plus_IZR, !mult_IZR, plus_IZR, mult_IZR. exact A2. }
      lia.
Qed.

(** ** What one run of [upload] does, branch by branch *)

Ltac js_unfold :=
  unfold run, upload, putWithProgress, refreshList, apiGet, fetch, json_of, member,
    detached, await, alert, emit, getFile, setFile, setProgress, setObjects,
    bind, ret, throw.

Lemma within_limit (f : File) : size f <= maxSize -> (size f >? maxSize) = false.
Proof. intros H. rewrite Z.gtb_ltb. apply Z.ltb_ge. exact H. Qed.

Lemma upload_no_file (w : world) (s : state) :
  file s = None ->
  run (upload w) s = (Return tt, {| ui := s; log := [Alert "choose a file"] |}).
Proof.
  intros H. js_unfold. simpl. rewrite H. reflexivity.
Qed.

Lemma upload_oversize (w : world) (s : state) (f : File) :
  file s = Some f ->
  size f > maxSize ->
  run (upload w) s
  = (Return tt, {| ui := s; log := [Alert "file exceeds max size (1GB)"] |}).
Proof.
  intros H Hsz. js_unfold. simpl. rewrite H.
  replace (size f >? maxSize) with true by (symmetry; apply Z.gtb_lt; lia).
  reflexivity.
Qed.

Lemma upload_without_url (w : world) (s : state) (f : File) (r : Response) (payload : json) :
  file s = Some f ->
  size f <= maxSize ->
  presign_reply w f = Reply r ->
  body r = Some payload ->
  when_truthy (get_opt payload "url") = None ->
  run (upload w) s
  = (Return tt, {| ui := s; log := [presign_request f; AlertPresignFailed payload] |}).
Proof.
  unfold presign_reply. intros H Hsz Hr Hb Hu. js_unfold. simpl. rewrite H.
  rewrite (within_limit f Hsz).
  simpl. rewrite Hr. simpl. rewrite Hb. simpl. rewrite Hu. reflexivity.
Qed.

(** Delivering XHR events with [setProgress] as the callback never throws and
    writes nothing to the log; only the progress cell can change. *)
Lemma deliver_setProgress (evs : list xhr_event) :
  forall (p : promise) (m : machine),
  exists p' q,
    deliver (fun x => setProgress x) evs p m
    = (Return p',
       {| ui := {| file := file (ui m); progress := q; objects := objects (ui m) |};
          log := log m |}).
Proof.
  induction evs as [|ev rest IH]; intros p m.
  - exists p, (progress (ui m)). destruct m as [[? ? ?] ?]. reflexivity.
  - destruct ev as [lc l t|st tx|].
    + destruct lc.
      * destruct (IH p {| ui := {| file := file (ui m); progress := percent l t;
                                   objects := objects (ui m) |}; log := log m |})
          as (p' & q & E).
        exists p', q. simpl in *. unfold bind, onprogress, setProgress, ret in *.
        simpl in *. exact E.
      * destruct (IH p m) as (p' & q & E). exists p', q.
        simpl. unfold bind, onprogress, ret. simpl. exact E.
    + destruct (IH (onload st tx p) m) as (p' & q & E). exists p', q.
      simpl. unfold bind, ret. exact E.
    + destruct (IH (onerror p) m) as (p' & q & E). exists p', q.
      simpl. unfold bind, ret. exact E.
Qed.

(** *** The transport *)

Lemma settled_stays (ev : xhr_event) (p : promise) :
  p <> Unsettled -> settle ev p = p.
Proof.
  intros H. destruct p; [congruence| |];
    destruct ev; simpl; unfold onload, onerror; try reflexivity;
    destruct (_ && _); reflexivity.
Qed.

Lemma settle_terminal (ev : xhr_event) :
  is_terminal ev = true -> settle ev Unsettled <> Unsettled.
Proof.
  destruct ev; simpl; try discriminate; intros _.
  unfold onload. destruct (_ && _); discriminate.
Qed.

Lemma deliver_promise (evs : list xhr_event) :
  forall (p : promise) (m : machine),
    fst (deliver (fun x => setProgress x) evs p m)
    = Return (fold_left (fun q ev => settle ev q) evs p).
Proof.
  induction evs as [|ev rest IH]; intros p m; [reflexivity|].
  destruct ev as [[|] l t|st tx|]; simpl; unfold bind, onprogress, setProgress, ret; simpl;
    apply IH.
Qed.

Lemma fold_settled (evs : list xhr_event) (p : promise) :
  p <> Unsettled -> fold_left (fun q ev => settle ev q) evs p = p.
Proof.
  induction evs as [|ev rest IH]; intros H; [reflexivity|].
  simpl. rewrite (settled_stays ev p H). apply IH, H.
Qed.

(** The first [load] or [error] event decides; whatever follows is ignored. *)
Lemma fold_first_terminal (evs : list xhr_event) (t : xhr_event) :
  find is_terminal evs = Some t ->
  fold_left (fun q ev => settle ev q) evs Unsettled = settle t Unsettled.
Proof.
  induction evs as [|ev rest IH]; simpl; [discriminate|].
  destruct (is_terminal ev) eqn:E.
  - intros [= <-]. apply fold_settled, settle_terminal, E.
  - intros H. destruct ev; try discriminate. simpl. apply IH, H.
Qed.


Lemma putWithProgress_runs (w : world) (url : json) (f : File) (m : machine) :
  exists q,
    putWithProgress w url f (fun x => setProgress x) m
    = (Return (fold_left (fun p ev => settle ev p) (xhr_events w) Unsettled),
       {| ui := {| file := file (ui m); progress := q; objects := objects (ui m) |};
          log := log m ++ request_of url f |}).
Proof.
  unfold putWithProgress, emit, bind. simpl.
  match goal with
  | |- context [deliver ?cb ?evs ?p ?m0] =>
      destruct (deliver_setProgress evs p m0) as (p' & q & E);
      pose proof (deliver_promise evs p m0) as P
  end.
  rewrite E in *. simpl in *. injection P as ->. exists q.
  repeat rewrite <- app_assoc. reflexivity.
Qed.

Lemma onload_verdict (st : Z) (tx : string) :
  (200 <= st < 300 -> onload st tx Unsettled = Fulfilled)
  /\ (~ 200 <= st < 300 ->
      onload st tx Unsettled
      = Rejected (Error ("Upload failed: " ++ tx ++ " " ++ string_of_Z st))).
Proof.
  unfold onload. split; intros H.
  - replace ((200 <=? st) && (st <? 300)) with true; [reflexivity|].
    symmetry. apply andb_true_intro. split; [apply Z.leb_le|apply Z.ltb_lt]; lia.
  - destruct ((200 <=? st) && (st <? 300)) eqn:E; [|reflexivity].
    apply andb_prop in E. destruct E as [A B].
    apply Z.leb_le in A. apply Z.ltb_lt in B. lia.
Qed.

(** *** The listing *)

Lemma apiGet_reply (w : world) (path : string) (r : Response) (m : machine) :
  fetch_reply w path [] = Reply r ->
  exists warnings,
    apiGet w path m
    = (Return (parsed r),
       {| ui := ui m; log := log m ++ Fetch path [] (Some "same-origin") :: warnings |})
    /\ forallb is_warning warnings = true.
Proof.
  intros H. unfold apiGet, parsed, fetch, emit, bind, ret. simpl. rewrite H.
  destruct (ok r); simpl.
  - destruct (includes _ _); simpl.
    + destruct (body r); simpl.
      * exists []. split; reflexivity.
      * eexists [_]. rewrite <- app_assoc. split; reflexivity.
    + exists []. split; reflexivity.
  - eexists [_]. rewrite <- app_assoc. split; reflexivity.
Qed.

(** A listing reply that [apiGet] turns into a value other than null replaces
    the collection. *)
Lemma refreshList_replaces (w : world) (r : Response) (m : machine) :
  fetch_reply w "/api/r2/list" [] = Reply r ->
  parsed r <> JNull ->
  exists warnings,
    refreshList w m
    = (Return tt,
       {| ui := {| file := file (ui m); progress := progress (ui m);
                   objects := or_else (get (parsed r) "objects") (JArr []) |};
          log := log m ++ list_request :: warnings |})
    /\ forallb is_warning warnings = true.
Proof.
  intros H N. destruct (apiGet_reply w _ r m H) as (ws & E & W).
  exists ws. split; [|exact W].
  unfold refreshList, bind. rewrite E.
  destruct (parsed r); try congruence; reflexivity.
Qed.

(** A listing reply that [apiGet] turns into null makes [res.objects] throw:
    [setObjects] is not reached and the collection keeps its entries. *)
Lemma refreshList_null (w : world) (r : Response) (m : machine) :
  fetch_reply w "/api/r2/list" [] = Reply r ->
  parsed r = JNull ->
  exists warnings,
    refreshList w m
    = (Throw (TypeError "objects"),
       {| ui := ui m; log := log m ++ list_request :: warnings |})
    /\ forallb is_warning warnings = true.
Proof.
  intros H N. destruct (apiGet_reply w _ r m H) as (ws & E & W).
  exists ws. split; [|exact W].
  unfold refreshList, bind. rewrite E, N. reflexivity.
Qed.

Lemma not_ok_null (r : Response) : ok r = false -> parsed r = JNull.
Proof. intros H. unfold parsed. rewrite H. reflexivity. Qed.

(** *** A whole attempt that reaches the transport *)

Lemma upload_reaches_transport (w : world) (s : state) (f : File) (r : Response)
    (payload url : json) :
  file s = Some f ->
  size f <= maxSize ->
  presign_reply w f = Reply r ->
  body r = Some payload ->
  when_truthy (get_opt payload "url") = Some url ->
  exists q,
    let sent := {| ui := {| file := Some f; progress := q; objects := objects s |};
                   log := presign_request f :: request_of url f |} in
    run (upload w) s
    = match fold_left (fun p ev => settle ev p) (xhr_events w) Unsettled with
      | Unsettled => (Pending, sent)
      | Rejected e => (Throw e, sent)
      | Fulfilled =>
          detached (refreshList w)
            {| ui := {| file := None; progress := Number.of_Z 0; objects := objects s |};
               log := presign_request f :: request_of url f ++ [Alert "Upload complete"] |}
      end.
Proof.
  unfold presign_reply. intros H Hsz Hr Hb Hu.
  destruct (putWithProgress_runs w url f
              {| ui := s; log := [presign_request f] |}) as (q & E).
  exists q. unfold run, upload, bind at 1, getFile. simpl. rewrite H.
  rewrite (within_limit f Hsz).
  unfold bind at 1, fetch, bind at 1, emit. simpl. rewrite Hr.
  unfold ret at 1, bind at 1, json_of. rewrite Hb. unfold ret at 1.
  rewrite Hu. unfold bind at 1. unfold presign_request in E. simpl in E.
  rewrite H in E. rewrite E.
  destruct (fold_left _ _ _);
    unfold bind, await, alert, emit, setProgress, setFile; reflexivity.
Qed.

(** When the request completes with a 2xx status and the listing reply is an
    object, the attempt ends with the cells reset and the collection replaced
    by what the lister sent, whatever it held before. *)
Lemma upload_success (w : world) (s : state) (f : File) (r r' : Response)
    (payload url : json) (st : Z) (tx : string) :
  file s = Some f ->
  size f <= maxSize ->
  presign_reply w f = Reply r ->
  body r = Some payload ->
  when_truthy (get_opt payload "url") = Some url ->
  find is_terminal (xhr_events w) = Some (Load st tx) ->
  200 <= st < 300 ->
  fetch_reply w "/api/r2/list" [] = Reply r' ->
  parsed r' <> JNull ->
  exists warnings,
    run (upload w) s
    = (Return tt,
       {| ui := {| file := None; progress := Number.of_Z 0;
                   objects := or_else (get (parsed r') "objects") (JArr []) |};
          log := presign_request f :: request_of url f
                 ++ [Alert "Upload complete"] ++ list_request :: warnings |})
    /\ forallb is_warning warnings = true.
Proof.
  intros H Hsz Hr Hb Hu Ht Hst Hl Hn.
  destruct (upload_reaches_transport w s f r payload url H Hsz Hr Hb Hu) as (q & E).
  cbv zeta in E. rewrite E.
  rewrite (fold_first_terminal _ _ Ht). simpl.
  rewrite (proj1 (onload_verdict st tx) Hst).
  match goal with
  | |- context [detached _ ?m0] =>
      destruct (refreshList_replaces w r' m0 Hl Hn) as (ws & R & W)
  end.
  exists ws. split; [|exact W].
  unfold detached. rewrite R. reflexivity.
Qed.

(** ** The claims *)

(** C3: a candidate whose size is strictly greater than 1,073,741,824 bytes
    is rejected with one message before any network call: the log of the
    attempt holds that alert and nothing else, so neither the issuer, nor the
    transport, nor the lister was contacted, and the state is untouched. *)
Theorem oversize_rejected_without_network (w : world) (s : state) (f : File) :
  file s = Some f ->
  size f > 1073741824 ->
  run (upload w) s
  = (Return tt, {| ui := s; log := [Alert "file exceeds max size (1GB)"] |})
  /\ filter is_network (log (snd (run (upload w) s))) = [].
Proof.
  intros H Hsz.
  assert (E := upload_oversize w s f H Hsz).
  rewrite E. split; reflexivity.
Qed.

Lemma oversize_rejected_without_network_witness :
  run (upload (server issued listed [Load 200 "OK"])) (selecting huge)
  = (Return tt, {| ui := selecting huge; log := [Alert "file exceeds max size (1GB)"] |})
  /\ filter is_network
       (log (snd (run (upload (server issued listed [Load 200 "OK"])) (selecting huge)))) = [].
Proof.
  apply (oversize_rejected_without_network _ _ huge); [reflexivity | reflexivity].
Defined.

(** C10: when the upload action fires with no candidate selected, the only
    thing that happens is the 'choose a file' alert: no network call, and
    progress, candidate and collection are left as they were. *)
Theorem no_candidate_no_effect (w : world) (s : state) :
  file s = None ->
  run (upload w) s = (Return tt, {| ui := s; log := [Alert "choose a file"] |})
  /\ filter is_network (log (snd (run (upload w) s))) = [].
Proof.
  intros H. rewrite (upload_no_file w s H). split; reflexivity.
Qed.

Lemma no_candidate_no_effect_witness :
  run (upload (server issued listed [Load 200 "OK"])) initial
  = (Return tt, {| ui := initial; log := [Alert "choose a file"] |})
  /\ filter is_network
       (log (snd (run (upload (server issued listed [Load 200 "OK"])) initial))) = [].
Proof.
  apply no_candidate_no_effect. reflexivity.
Defined.




(** C1, as stated, fails: the status of the presign reply is never read.  A
    reply with status 500 whose body carries a [url] is not reported as a
    presign failure, and the file is PUT to that URL. *)
Lemma failed_status_with_url_is_uploaded :
  (exists r, failing_issuer = Reply r /\ ok r = false)
  /\ run (upload (server failing_issuer listed [Load 200 "OK"])) (selecting report)
     = (Return tt,
        {| ui := {| file := None; progress := Number.of_Z 0; objects := JArr [stored] |};
           log := [presign_request report;
                   XhrOpen "PUT" (JStr "https://store.example/abc") true;
                   XhrSetRequestHeader "Content-Type" "application/pdf";
                   XhrSend report;
                   Alert "Upload complete";
                   list_request] |}).
Proof.
  split; [eexists; split; reflexivity | reflexivity].
Qed.

(** C1, amended: whenever the body of the presign reply parses as JSON and
    has no truthy [url] (the body is null, is not an object, has no [url] key,
    or its [url] is null, false, 0 or the empty string), whatever the HTTP
    status, the attempt stops with the 'presign failed' alert that shows the
    body; the transport is not invoked and the state is untouched. *)
Theorem presign_without_url_stops (w : world) (s : state) (f : File) (r : Response)
    (payload : json) :
  file s = Some f ->
  size f <= maxSize ->
  presign_reply w f = Reply r ->
  body r = Some payload ->
  when_truthy (get_opt payload "url") = None ->
  run (upload w) s
  = (Return tt, {| ui := s; log := [presign_request f; AlertPresignFailed payload] |})
  /\ filter is_xhr (log (snd (run (upload w) s))) = [].
Proof.
  intros H Hsz Hr Hb Hu.
  rewrite (upload_without_url w s f r payload H Hsz Hr Hb Hu).
  split; reflexivity.
Qed.

Lemma presign_without_url_stops_witness :
  run (upload (server refusing_issuer listed [Load 200 "OK"])) (selecting report)
  = (Return tt,
     {| ui := selecting report;
        log := [presign_request report;
                AlertPresignFailed (JObj [("error", JStr "filename required")])] |})
  /\ filter is_xhr
       (log (snd (run (upload (server refusing_issuer listed [Load 200 "OK"]))
                    (selecting report)))) = [].
Proof.
  apply (presign_without_url_stops
           (server refusing_issuer listed [Load 200 "OK"]) (selecting report) report
           {| status := 400; statusText := "Bad Request";
              content_type := Some "application/json";
              body := Some (JObj [("error", JStr "filename required")]) |}
           (JObj [("error", JStr "filename required")]));
    first [reflexivity | (unfold maxSize; simpl; lia)].
Defined.

(** C2, as stated, fails.  After a validation failure the candidate is still
    selected: the cell is not put back to its initial null.  After a failed
    PUT (status 500 following one progress event) the promise of [upload]
    rejects and nothing catches it: the log holds no alert at all, the
    candidate is still selected and the progress cell keeps 50. *)
Lemma failed_attempt_is_not_reset :
  (run (upload (server issued listed [])) (selecting huge)
   = (Return tt,
      {| ui := {| file := Some huge; progress := Number.of_Z 0; objects := JArr [] |};
         log := [Alert "file exceeds max size (1GB)"] |})
   /\ Some huge <> file initial)
  /\ (run (upload (server issued listed
                     [UploadProgress true 50 100; Load 500 "Internal Server Error"]))
          (selecting report)
      = (Throw (Error "Upload failed: Internal Server Error 500"),
         {| ui := {| file := Some report; progress := Number.of_Z 50; objects := JArr [] |};
            log := [presign_request report;
                    XhrOpen "PUT" (JStr "https://store.example/abc") true;
                    XhrSetRequestHeader "Content-Type" "application/pdf";
                    XhrSend report] |})
      /\ Number.of_Z 50 <> progress initial).
Proof.
  split; (split; [reflexivity | discriminate]).
Qed.

(** C2, amended: an attempt that fails at validation, or at the credential
    step with a JSON body that has no truthy [url], is aborted with exactly
    one alert and without touching the transport; candidate, progress and
    collection are left exactly as they were when the attempt started (the
    candidate stays selected). *)
Theorem rejected_attempt_keeps_state (w : world) (s : state) (f : File) :
  file s = Some f ->
  size f > maxSize
  \/ (size f <= maxSize
      /\ exists r payload,
           presign_reply w f = Reply r
           /\ body r = Some payload
           /\ when_truthy (get_opt payload "url") = None) ->
  exists shown,
    run (upload w) s = (Return tt, {| ui := s; log := shown |})
    /\ List.length (filter is_alert shown) = 1%nat
    /\ filter is_xhr shown = [].
Proof.
  intros H [Hsz | (Hsz & r & payload & Hr & Hb & Hu)].
  - eexists. split; [apply (upload_oversize w s f H Hsz)|]. split; reflexivity.
  - eexists. split; [apply (upload_without_url w s f r payload H Hsz Hr Hb Hu)|].
    split; reflexivity.
Qed.

Lemma rejected_attempt_keeps_state_witness :
  exists shown,
    run (upload (server refusing_issuer listed [])) (selecting report)
    = (Return tt, {| ui := selecting report; log := shown |})
    /\ List.length (filter is_alert shown) = 1%nat
    /\ filter is_xhr shown = [].
Proof.
  apply (rejected_attempt_keeps_state
           (server refusing_issuer listed []) (selecting report) report);
    [reflexivity|].
  right. split; [unfold maxSize; simpl; lia|].
  eexists _, _. repeat split; reflexivity.
Defined.

(** C5 at a failing listing: [apiGet] answers a 500 reply with null, the
    read of [res.objects] throws a TypeError, [setObjects] is never reached
    and the collection still shows the entry it showed before. *)
Theorem failed_listing_throws_and_keeps_entries :
  run (refreshList (server issued failing_lister [])) (showing [stored])
  = (Throw (TypeError "objects"),
     {| ui := showing [stored];
        log := [list_request;
                ConsoleWarn "apiGet /api/r2/list returned 500 Internal Server Error"] |})
  /\ objects (showing [stored]) <> JArr [].
Proof.
  split; [reflexivity | discriminate].
Qed.

(** C6 at a failing listing: issuer and transport succeed, progress and
    candidate are reset, but the refresh throws on the null that [apiGet]
    returned and the collection keeps its stale entry instead of being
    replaced. *)
Theorem upload_then_failed_listing_keeps_stale :
  run (upload (server issued failing_lister [UploadProgress true 100 100; Load 200 "OK"]))
      {| file := Some report; progress := Number.of_Z 0; objects := JArr [stored] |}
  = (Return tt,
     {| ui := {| file := None; progress := Number.of_Z 0; objects := JArr [stored] |};
        log := [presign_request report;
                XhrOpen "PUT" (JStr "https://store.example/abc") true;
                XhrSetRequestHeader "Content-Type" "application/pdf";
                XhrSend report;
                Alert "Upload complete";
                list_request;
                ConsoleWarn "apiGet /api/r2/list returned 500 Internal Server Error";
                UnhandledRejection (TypeError "objects")] |}).
Proof.
  reflexivity.
Qed.

(** The end-to-end scenario of the spec: report.pdf of 2048 bytes, a url from
    the issuer, progress 100 and a resolved transport, one listed object.
    The collection ends as that object, progress 0, no candidate. *)
Lemma end_to_end_scenario :
  run (upload (server issued listed [UploadProgress true 2048 2048; Load 200 "OK"]))
      (selecting report)
  = (Return tt,
     {| ui := {| file := None; progress := Number.of_Z 0; objects := JArr [stored] |};
        log := [presign_request report;
                XhrOpen "PUT" (JStr "https://store.example/abc") true;
                XhrSetRequestHeader "Content-Type" "application/pdf";
                XhrSend report;
                Alert "Upload complete";
                list_request] |}).
Proof. vm_compute. reflexivity. Qed.

(** The scenario of the spec: events (50,100) and (100,100) display 50 and
    then 100. *)
Lemma progress_50_then_100 :
  percent 50 100 = Number.of_Z 50
  /\ percent 100 100 = Number.of_Z 100
  /\ progress (ui (snd (run (deliver (fun p => setProgress p)
                              [UploadProgress true 50 100] Unsettled) initial)))
     = Number.of_Z 50
  /\ progress (ui (snd (run (deliver (fun p => setProgress p)
                              [UploadProgress true 50 100; UploadProgress true 100 100]
                              Unsettled) initial)))
     = Number.of_Z 100.
Proof.
  repeat split; vm_compute; reflexivity.
Qed.

(** C7, as stated, fails at an exact tie.  With 23 of 40 bytes sent the
    percentage is 57.5 and [round] of it is 58; the double product
    [(23 / 40) * 100] is 57.49999999999999 and [Math.round] of that, the value
    handed to the UI, is 57. *)
Lemma tie_reported_one_below :
  spec_round 23 40 = 58
  /\ Number.mul (Number.div (Number.of_Z 23) (Number.of_Z 40)) (Number.of_Z 100)
     = S754_finite false 8092405580431359 (-47)
  /\ percent 23 40 = Number.of_Z 57
  /\ Number.of_Z 57 <> Number.of_Z 58
  /\ run (onprogress (fun p => setProgress p) true 23 40) initial
     = (Return tt,
        {| ui := {| file := None; progress := Number.of_Z 57; objects := JArr [] |};
           log := [] |}).
Proof.
  repeat split; try (vm_compute; reflexivity). vm_compute. discriminate.
Qed.

(** The same product on the machine's binary64 unit, through the kernel's
    primitive floats: the specification above is the arithmetic a browser
    runs. *)
Lemma machine_product_at_tie :
  FloatOps.Prim2SF
    (PrimFloat.mul
       (PrimFloat.div (PrimFloat.of_uint63 (Uint63.of_Z 23))
                      (PrimFloat.of_uint63 (Uint63.of_Z 40)))
       (PrimFloat.of_uint63 (Uint63.of_Z 100)))
  = Number.mul (Number.div (Number.of_Z 23) (Number.of_Z 40)) (Number.of_Z 100).
Proof. vm_compute. reflexivity. Qed.

(** C7, amended: for a progress event with a computable length,
    [0 <= loaded <= total] and [0 < total < 2^64], the callback receives
    [Math.round] of the double product [(loaded / total) * 100].  That value
    is an integer in [0,100]; for totals up to 2^44 bytes it is the exactly
    rounded percentage, except that at an exact tie [k + 1/2] it may be [k]
    instead of [k + 1].  When the length is not computable the callback is
    not invoked and nothing is thrown. *)
Theorem progress_value_in_range (onProgress : number -> M unit) (loaded total : Z) :
  0 <= loaded <= total ->
  0 < total < 2 ^ 64 ->
  exists z,
    onprogress onProgress true loaded total = onProgress (Number.of_Z z)
    /\ 0 <= z <= 100
    /\ (total <= 2 ^ 44 ->
        z = spec_round loaded total
        \/ (2 * (100 * loaded) = (2 * z + 1) * total /\ z + 1 = spec_round loaded total))
    /\ onprogress onProgress false loaded total = ret tt.
Proof.
  intros Hl Ht.
  destruct (percent_spec loaded total Hl Ht) as (z & E & Hz & Near).
  exists z. split; [unfold onprogress; rewrite E; reflexivity|].
  split; [exact Hz|]. split; [|reflexivity].
  intros Hs. specialize (Near Hs). unfold spec_round.
  destruct (Z.eq_dec (2 * (100 * loaded)) ((2 * z + 1) * total)) as [Tie|NoTie].
  - right. split; [exact Tie|].
    apply (Z.div_unique_pos _ (2 * total) (z + 1) 0); lia.
  - left.
    apply (Z.div_unique_pos _ (2 * total) z (2 * (100 * loaded) + total - 2 * total * z));
      lia.
Qed.

Lemma progress_value_in_range_witness :
  exists z,
    onprogress (fun p => setProgress p) true 1 3 = setProgress (Number.of_Z z)
    /\ 0 <= z <= 100
    /\ (3 <= 2 ^ 44 ->
        z = spec_round 1 3
        \/ (2 * (100 * 1) = (2 * z + 1) * 3 /\ z + 1 = spec_round 1 3))
    /\ onprogress (fun p => setProgress p) false 1 3 = ret tt.
Proof.
  apply (progress_value_in_range (fun p => setProgress p) 1 3); lia.
Defined.

(** *** The Worker *)

(** No route of the table is registered for the presign path: a GET on it is
    answered by the catch-all static-asset handler, whatever the bindings and
    whatever file name and content type are asked for. *)
Lemma presign_falls_through_to_assets (env : Worker.Env) (filename contentType : string) :
  Worker.fetch (presign_http filename contentType) env
  = Some (Worker.serveAsset env "/api/r2/presign").
Proof. reflexivity. Qed.

(** X21: no handler of the Worker builds a JSON body that has a [url]:
    whoever asks and whatever is bound, the Worker issues no write URL. *)
Lemma worker_never_issues_url (env : Worker.Env) (request : Worker.Request)
    (response : Worker.Response) (j : json) :
  Worker.fetch request env = Some response ->
  Worker.body response = Worker.Json j ->
  get j "url" = None.
Proof.
  unfold Worker.fetch, Worker.handle. intros H B.
  destruct (find _ Worker.router) as [r|] eqn:F; [|discriminate].
  injection H as <-.
  apply find_some in F. destruct F as [In _].
  unfold Worker.router in In. simpl in In.
  destruct In as [<-|[<-|[<-|[<-|[<-|[]]]]]]; simpl in B.
  - unfold Worker.post_employees in B.
    destruct (_ || _) in B; [injection B as <-; reflexivity|].
    destruct (Worker.employee_db env) as [db|]; [|injection B as <-; reflexivity].
    destruct (Worker.insert_employee db _ _ _ _) as [msg|[id|]];
      injection B as <-; reflexivity.
  - unfold Worker.get_employees in B.
    destruct (Worker.employee_db env) as [db|]; [|injection B as <-; reflexivity].
    destruct (Worker.all_employees db) as [msg|rows]; injection B as <-; reflexivity.
  - unfold Worker.get_r2_list in B.
    destruct (Worker.BUCKET env) as [b|]; [|injection B as <-; reflexivity].
    destruct (Worker.list_prefix b _) as [msg|[os|]]; injection B as <-; reflexivity.
  - injection B as <-. reflexivity.
  - unfold Worker.get_any, Worker.serveAsset, Worker.textResponse, Worker.assetResponse in B.
    repeat match type of B with
           | context [if ?c then _ else _] => destruct c
           | context [match ?x with _ => _ end] => destruct x
           end; simpl in B; discriminate.
Qed.


(** * Further properties *)

(** ** [String.prototype.includes] *)

Lemma substring_middle (pre sub post : string) :
  substring (String.length pre) (String.length sub) (pre ++ sub ++ post) = sub.
Proof.
  induction pre as [|c pre IH]; simpl.
  - induction sub as [|c sub IH]; simpl.
    + destruct post; reflexivity.
    + rewrite IH. reflexivity.
  - exact IH.
Qed.

Lemma substring_split (m n : nat) (s t : string) :
  substring m n s = t -> String.length t = n ->
  exists pre post, s = pre ++ t ++ post.
Proof.
  revert s. induction m as [|m IH]; intros s H L.
  - exists "". simpl. subst n. revert s H.
    induction t as [|c t IHt]; intros s H; simpl in *.
    + exists s. reflexivity.
    + destruct s as [|c' s]; [discriminate|]. injection H as -> H.
      destruct (IHt s H) as [post ->]. exists post. reflexivity.
  - destruct s as [|c s].
    + simpl in H. destruct n; subst t; simpl in L; try discriminate.
      exists "", "". reflexivity.
    + simpl in H. destruct (IH s H L) as (pre & post & ->).
      exists (String c pre), post. reflexivity.
Qed.

(** [includes] holds exactly of the strings that contain the piece. *)
Lemma includes_spec (s sub : string) :
  includes s sub = true <-> exists pre post, s = pre ++ sub ++ post.
Proof.
  unfold includes. split.
  - destruct (index 0 sub s) as [m|] eqn:E; [|discriminate]. intros _.
    apply index_correct1 in E. apply (substring_split m _ s sub E). reflexivity.
  - intros (pre & post & ->).
    destruct (index 0 sub (pre ++ sub ++ post)) as [m|] eqn:E; [reflexivity|].
    exfalso.
    destruct sub as [|c sub].
    + destruct (pre ++ "" ++ post); simpl in E; discriminate.
    + apply (index_correct3 0 (String.length pre)) in E;
        [|discriminate|apply Nat.le_0_l].
      apply E, substring_middle.
Qed.

Lemma str_or_empty (c : string) : str_or c "" = c.
Proof. unfold str_or. destruct (String.eqb_spec c ""); congruence. Qed.

(** The content type [apiGet] tests. *)
Lemma accepted_type (r : Response) :
  includes (match content_type r with Some c => str_or c "" | None => "" end)
    "application/json" = true
  <-> exists pre post, content_type r = Some (pre ++ "application/json" ++ post).
Proof.
  rewrite includes_spec. destruct (content_type r) as [c|].
  - rewrite str_or_empty. split; intros (pre & post & E); exists pre, post; congruence.
  - split; intros (pre & post & E); [|discriminate].
    destruct pre; discriminate.
Qed.

(** ** [apiGet] *)

(** X1: [apiGet] resolves with null, and does not throw, for every reply
    that is not 2xx, whose content type does not contain application/json, or
    whose body does not parse; it has issued one same-origin GET and touched
    no cell. *)
Theorem apiGet_null_on_unusable_reply (w : world) (path : string) (r : Response)
    (m : machine) :
  fetch_reply w path [] = Reply r ->
  ok r = false
  \/ (forall pre post, content_type r <> Some (pre ++ "application/json" ++ post))
  \/ body r = None ->
  exists warnings,
    apiGet w path m
    = (Return JNull,
       {| ui := ui m;
          log := log m ++ Fetch path [] (Some "same-origin") :: warnings |})
    /\ forallb is_warning warnings = true.
Proof.
  intros H Bad. destruct (apiGet_reply w path r m H) as (ws & E & W).
  exists ws. split; [|exact W]. rewrite E. do 2 f_equal.
  unfold parsed. destruct (ok r); [|reflexivity].
  destruct (includes _ _) eqn:I; [|reflexivity].
  apply accepted_type in I. destruct I as (pre & post & I).
  destruct Bad as [B|[B|B]]; [discriminate | elim (B pre post I) | rewrite B; reflexivity].
Qed.

Lemma apiGet_null_on_unusable_reply_witness :
  exists warnings,
    apiGet (server issued failing_lister []) "/api/r2/list" {| ui := initial; log := [] |}
    = (Return JNull,
       {| ui := initial;
          log := [] ++ Fetch "/api/r2/list" [] (Some "same-origin") :: warnings |})
    /\ forallb is_warning warnings = true.
Proof.
  apply (apiGet_null_on_unusable_reply (server issued failing_lister []) "/api/r2/list"
           {| status := 500; statusText := "Internal Server Error";
              content_type := Some "application/json";
              body := Some (JObj [("error", JStr "R2 binding not configured")]) |}
           {| ui := initial; log := [] |}).
  - reflexivity.
  - left. reflexivity.
Defined.

(** X2: for a 2xx reply whose content type contains application/json
    anywhere (a charset parameter may follow) and whose body parses,
    [apiGet] resolves with the parsed body and warns of nothing. *)
Theorem apiGet_returns_parsed_body (w : world) (path : string) (r : Response)
    (pre post : string) (j : json) (m : machine) :
  fetch_reply w path [] = Reply r ->
  ok r = true ->
  content_type r = Some (pre ++ "application/json" ++ post) ->
  body r = Some j ->
  apiGet w path m
  = (Return j, {| ui := ui m; log := log m ++ [Fetch path [] (Some "same-origin")] |}).
Proof.
  intros H Ok Ct B.
  assert (I : includes (match content_type r with Some c => str_or c "" | None => "" end)
                "application/json" = true).
  { apply accepted_type. exists pre, post. exact Ct. }
  unfold apiGet, fetch, emit, bind, ret. simpl. rewrite H, Ok. simpl.
  rewrite I. simpl. rewrite B. reflexivity.
Qed.

Lemma apiGet_returns_parsed_body_witness :
  apiGet (server issued
            (Reply {| status := 200; statusText := "OK";
                      content_type := Some "application/json; charset=utf-8";
                      body := Some (JObj [("objects", JArr [stored])]) |}) [])
    "/api/r2/list" {| ui := initial; log := [] |}
  = (Return (JObj [("objects", JArr [stored])]),
     {| ui := ui {| ui := initial; log := [] |};
        log := log {| ui := initial; log := [] |}
               ++ [Fetch "/api/r2/list" [] (Some "same-origin")] |}).
Proof.
  apply (apiGet_returns_parsed_body _ _
           {| status := 200; statusText := "OK";
              content_type := Some "application/json; charset=utf-8";
              body := Some (JObj [("objects", JArr [stored])]) |}
           "" "; charset=utf-8"); reflexivity.
Defined.

(** X3: a network failure is not turned into null: when [fetch] rejects,
    [apiGet] rejects with the same error, after its one request. *)
Theorem apiGet_rejects_when_fetch_rejects (w : world) (path : string) (m : machine) :
  fetch_reply w path [] = NoReply ->
  apiGet w path m
  = (Throw FetchError,
     {| ui := ui m; log := log m ++ [Fetch path [] (Some "same-origin")] |}).
Proof.
  intros H. unfold apiGet, fetch, emit, bind, throw. simpl. rewrite H. reflexivity.
Qed.

Lemma apiGet_rejects_when_fetch_rejects_witness :
  apiGet (server NoReply NoReply []) "/api/r2/list" {| ui := initial; log := [] |}
  = (Throw FetchError,
     {| ui := ui {| ui := initial; log := [] |};
        log := log {| ui := initial; log := [] |}
               ++ [Fetch "/api/r2/list" [] (Some "same-origin")] |}).
Proof.
  apply (apiGet_rejects_when_fetch_rejects (server NoReply NoReply [])). reflexivity.
Defined.

(** ** [refreshList] *)

(** However the listing goes, [refreshList] issues the one listing request,
    may warn, and writes at most the collection. *)
Lemma refreshList_runs (w : world) (m : machine) :
  exists result shown warnings,
    refreshList w m
    = (result,
       {| ui := {| file := file (ui m); progress := progress (ui m); objects := shown |};
          log := log m ++ list_request :: warnings |})
    /\ forallb is_warning warnings = true.
Proof.
  destruct (fetch_reply w "/api/r2/list" []) as [|r] eqn:H.
  - exists (Throw FetchError), (objects (ui m)), [].
    split; [|reflexivity].
    unfold refreshList, apiGet, fetch, emit, bind, throw. simpl. rewrite H.
    destruct m as [[? ? ?] ?]. reflexivity.
  - destruct (parsed r) eqn:P.
    1:{ destruct (refreshList_null w r m H P) as (ws & E & W).
        exists (Throw (TypeError "objects")), (objects (ui m)), ws. split; [|exact W].
        rewrite E. destruct m as [[? ? ?] ?]. reflexivity. }
    all: destruct (refreshList_replaces w r m H ltac:(rewrite P; discriminate))
           as (ws & E & W);
         eexists _, _, ws; split; [exact E | exact W].
Qed.

(** X4: whatever the lister answers, [refreshList] leaves the selected
    candidate and the progress as they are, sends exactly one request, the
    same-origin GET of /api/r2/list, and shows no alert. *)
Theorem refreshList_frame (w : world) (s : state) :
  file (ui (snd (run (refreshList w) s))) = file s
  /\ progress (ui (snd (run (refreshList w) s))) = progress s
  /\ filter is_network (log (snd (run (refreshList w) s))) = [list_request]
  /\ filter is_alert (log (snd (run (refreshList w) s))) = [].
Proof.
  unfold run.
  destruct (refreshList_runs w {| ui := s; log := [] |}) as (o & shown & ws & E & W).
  rewrite E. simpl. split; [reflexivity|]. split; [reflexivity|].
  assert (N : filter is_network ws = [] /\ filter is_alert ws = []).
  { clear E. induction ws as [|e ws IH]; [split; reflexivity|].
    simpl in W. apply andb_prop in W. destruct W as [We Ws].
    destruct e; try discriminate. simpl. apply IH, Ws. }
  destruct N as [N1 N2]. rewrite N1, N2. split; reflexivity.
Qed.

(** X5: a usable reply (2xx, JSON) that is not null and has no truthy
    [objects] empties the collection, whatever it showed before. *)
Theorem refreshList_without_objects_shows_nothing (w : world) (s : state) (r : Response) :
  fetch_reply w "/api/r2/list" [] = Reply r ->
  parsed r <> JNull ->
  when_truthy (get (parsed r) "objects") = None ->
  fst (run (refreshList w) s) = Return tt
  /\ objects (ui (snd (run (refreshList w) s))) = JArr [].
Proof.
  intros H N U. unfold run.
  destruct (refreshList_replaces w r {| ui := s; log := [] |} H N) as (ws & E & _).
  rewrite E. simpl. split; [reflexivity|].
  unfold or_else. unfold when_truthy in U.
  destruct (get (parsed r) "objects") as [v|]; [|reflexivity].
  destruct (truthy v); [discriminate | reflexivity].
Qed.

Lemma refreshList_without_objects_shows_nothing_witness :
  fst (run (refreshList (server issued (json_reply 200 "OK" (JObj [("items", JArr [stored])])) []))
         (showing [stored])) = Return tt
  /\ objects (ui (snd (run (refreshList
                             (server issued
                                (json_reply 200 "OK" (JObj [("items", JArr [stored])])) []))
                         (showing [stored])))) = JArr [].
Proof.
  apply (refreshList_without_objects_shows_nothing _ _
           {| status := 200; statusText := "OK"; content_type := Some "application/json";
              body := Some (JObj [("items", JArr [stored])]) |});
    [reflexivity | discriminate | reflexivity].
Defined.

(** ** [upload] *)

Lemma upload_presign_unreadable (w : world) (s : state) (f : File) :
  file s = Some f ->
  size f <= maxSize ->
  forall e,
    (presign_reply w f = NoReply /\ e = FetchError)
    \/ (exists r, presign_reply w f = Reply r /\ body r = None /\ e = SyntaxError) ->
    run (upload w) s = (Throw e, {| ui := s; log := [presign_request f] |}).
Proof.
  unfold presign_reply. intros H Hsz e Hc. js_unfold. simpl. rewrite H.
  rewrite (within_limit f Hsz). simpl.
  destruct Hc as [[Hr ->]|(r & Hr & Hb & ->)]; rewrite Hr; simpl.
  - reflexivity.
  - rewrite Hb. reflexivity.
Qed.

(** X6: when the presign request fails on the network, or its reply is not
    JSON, [upload] rejects (with the fetch error, or a SyntaxError): nothing
    catches it, so no alert is shown; the transport is not invoked and the
    cells are untouched. *)
Theorem upload_rejects_on_unreadable_presign (w : world) (s : state) (f : File) :
  file s = Some f ->
  size f <= maxSize ->
  presign_reply w f = NoReply
  \/ (exists r, presign_reply w f = Reply r /\ body r = None) ->
  exists e,
    run (upload w) s = (Throw e, {| ui := s; log := [presign_request f] |})
    /\ (e = FetchError \/ e = SyntaxError).
Proof.
  intros H Hsz [Hr|(r & Hr & Hb)].
  - exists FetchError. split; [|left; reflexivity].
    apply (upload_presign_unreadable w s f H Hsz). left. split; [exact Hr|reflexivity].
  - exists SyntaxError. split; [|right; reflexivity].
    apply (upload_presign_unreadable w s f H Hsz). right. exists r. repeat split; assumption.
Qed.

Lemma upload_rejects_on_unreadable_presign_witness :
  exists e,
    run (upload (server
                   (Reply {| status := 200; statusText := "OK";
                             content_type := Some "text/html"; body := None |})
                   listed [])) (selecting report)
    = (Throw e, {| ui := selecting report; log := [presign_request report] |})
    /\ (e = FetchError \/ e = SyntaxError).
Proof.
  apply (upload_rejects_on_unreadable_presign _ (selecting report) report);
    [reflexivity | unfold maxSize; simpl; lia |].
  right. eexists. split; reflexivity.
Defined.







(** X10: the size limit is inclusive.  A candidate of exactly 1,073,741,824
    bytes is not rejected: the attempt goes on to the presign request. *)
Theorem upload_accepts_exactly_one_gibibyte (w : world) (s : state) (f : File) :
  file s = Some f ->
  size f = 1073741824 ->
  exists rest,
    log (snd (run (upload w) s)) = presign_request f :: rest
    /\ ~ In (Alert "file exceeds max size (1GB)") rest.
Proof.
  intros H Hs.
  assert (Hsz : size f <= maxSize) by (unfold maxSize; lia).
  destruct (presign_reply w f) as [|r] eqn:Hr.
  { rewrite (upload_presign_unreadable w s f H Hsz FetchError
               (or_introl (conj Hr eq_refl))). exists []. split; [reflexivity|]. intros []. }
  destruct (body r) as [payload|] eqn:Hb.
  2:{ rewrite (upload_presign_unreadable w s f H Hsz SyntaxError).
      - exists []. split; [reflexivity|]. intros [].
      - right. exists r. repeat split; assumption. }
  destruct (when_truthy (get_opt payload "url")) as [url|] eqn:Hu.
  2:{ rewrite (upload_without_url w s f r payload H Hsz Hr Hb Hu).
      eexists. split; [reflexivity|]. intros [A|[]]. discriminate. }
  destruct (upload_reaches_transport w s f r payload url H Hsz Hr Hb Hu) as (q & E).
  cbv zeta in E. rewrite E.
  destruct (fold_left _ _ _).
  - eexists. split; [reflexivity|]. simpl. intros [A|[A|[A|[]]]]; discriminate.
  - match goal with
    | |- context [detached _ ?m0] =>
        destruct (refreshList_runs w m0) as (o & shown & ws & R & W)
    end.
    assert (N : forall x, In x ws -> is_warning x = true).
    { apply forallb_forall. exact W. }
    unfold detached. rewrite R.
    destruct o; simpl; unfold emit; simpl; eexists; (split; [reflexivity|]);
      intros A; repeat (first [rewrite in_app_iff in A | progress simpl in A]);
      repeat match type of A with _ \/ _ => destruct A as [A|A] end;
      try discriminate; try contradiction; apply N in A; discriminate.
  - eexists. split; [reflexivity|]. simpl. intros [A|[A|[A|[]]]]; discriminate.
Qed.

Lemma upload_accepts_exactly_one_gibibyte_witness :
  exists rest,
    log (snd (run (upload (server issued listed [Load 200 "OK"]))
                (selecting {| name := "disk.img"; size := 1073741824; type := "" |})))
    = presign_request {| name := "disk.img"; size := 1073741824; type := "" |} :: rest
    /\ ~ In (Alert "file exceeds max size (1GB)") rest.
Proof.
  apply (upload_accepts_exactly_one_gibibyte (server issued listed [Load 200 "OK"])
           (selecting {| name := "disk.img"; size := 1073741824; type := "" |})
           {| name := "disk.img"; size := 1073741824; type := "" |}); reflexivity.
Defined.

(** X11: when issuer and transport succeed and the listing reply is one
    [apiGet] does not turn into null, the attempt ends with progress 0, no
    candidate, and the collection replaced by [res.objects || []] whatever it
    held before; the only alert is 'Upload complete' and the calls are the
    presign request, the PUT and the listing request, in that order. *)
Theorem upload_replaces_collection (w : world) (s : state) (f : File) (r r' : Response)
    (payload url : json) (st : Z) (tx : string) :
  file s = Some f ->
  size f <= maxSize ->
  presign_reply w f = Reply r ->
  body r = Some payload ->
  when_truthy (get_opt payload "url") = Some url ->
  find is_terminal (xhr_events w) = Some (Load st tx) ->
  200 <= st < 300 ->
  fetch_reply w "/api/r2/list" [] = Reply r' ->
  parsed r' <> JNull ->
  fst (run (upload w) s) = Return tt
  /\ ui (snd (run (upload w) s))
     = {| file := None; progress := Number.of_Z 0;
          objects := or_else (get (parsed r') "objects") (JArr []) |}
  /\ filter is_alert (log (snd (run (upload w) s))) = [Alert "Upload complete"]
  /\ filter is_network (log (snd (run (upload w) s)))
     = presign_request f :: request_of url f ++ [list_request].
Proof.
  intros H Hsz Hr Hb Hu Ht Hst Hl Hn.
  destruct (upload_success w s f r r' payload url st tx H Hsz Hr Hb Hu Ht Hst Hl Hn)
    as (ws & E & W).
  rewrite E. simpl.
  assert (N : filter is_network ws = [] /\ filter is_alert ws = []).
  { clear E. induction ws as [|e ws IH]; [split; reflexivity|].
    simpl in W. apply andb_prop in W. destruct W as [We Ws].
    destruct e; try discriminate. simpl. apply IH, Ws. }
  destruct N as [N1 N2]. rewrite N1, N2. repeat split; reflexivity.
Qed.

Lemma upload_replaces_collection_witness :
  let w := server issued listed [UploadProgress true 2048 2048; Load 201 "Created"] in
  let s := {| file := Some report; progress := Number.of_Z 0;
              objects := JArr [JObj [("key", JStr "uploads/old.txt")]] |} in
  fst (run (upload w) s) = Return tt
  /\ ui (snd (run (upload w) s))
     = {| file := None; progress := Number.of_Z 0;
          objects := or_else
                       (get (parsed
                               {| status := 200; statusText := "OK";
                                  content_type := Some "application/json";
                                  body := Some (JObj [("objects", JArr [stored])]) |})
                          "objects") (JArr []) |}
  /\ filter is_alert (log (snd (run (upload w) s))) = [Alert "Upload complete"]
  /\ filter is_network (log (snd (run (upload w) s)))
     = presign_request report
       :: request_of (JStr "https://store.example/abc") report ++ [list_request].
Proof.
  apply (upload_replaces_collection
           (server issued listed [UploadProgress true 2048 2048; Load 201 "Created"])
           {| file := Some report; progress := Number.of_Z 0;
              objects := JArr [JObj [("key", JStr "uploads/old.txt")]] |}
           report
           {| status := 200; statusText := "OK"; content_type := Some "application/json";
              body := Some (JObj [("url", JStr "https://store.example/abc")]) |}
           {| status := 200; statusText := "OK"; content_type := Some "application/json";
              body := Some (JObj [("objects", JArr [stored])]) |}
           (JObj [("url", JStr "https://store.example/abc")])
           (JStr "https://store.example/abc") 201 "Created");
    first [reflexivity | (unfold maxSize; simpl; lia) | lia | discriminate].
Defined.

(** ** Progress *)

Lemma deliver_quiet (post : list xhr_event) :
  forallb (fun ev => negb (is_computable ev)) post = true ->
  forall (p : promise) (m : machine),
    progress (ui (snd (deliver (fun x => setProgress x) post p m))) = progress (ui m).
Proof.
  induction post as [|ev post IH]; intros Q p m; [reflexivity|].
  simpl in Q. apply andb_prop in Q. destruct Q as [Qe Qs].
  destruct ev as [[|] l t|st tx|]; try discriminate;
    simpl; unfold bind, onprogress, ret; simpl; apply IH, Qs.
Qed.

(** X12: the progress cell shows the percentage of the last progress event
    with a computable length, whatever came before it (a smaller value
    replaces a larger one: there is no running maximum and no averaging);
    events without a computable length, and the final load or error, do not
    change it. *)
Theorem progress_shows_last_computable_event (pre post : list xhr_event)
    (loaded total : Z) (p : promise) (m : machine) :
  forallb (fun ev => negb (is_computable ev)) post = true ->
  progress (ui (snd (deliver (fun x => setProgress x)
                       (pre ++ UploadProgress true loaded total :: post) p m)))
  = percent loaded total.
Proof.
  intros Q. revert p m.
  induction pre as [|ev pre IH]; intros p m.
  - simpl. unfold bind, onprogress, setProgress, ret. simpl.
    rewrite (deliver_quiet post Q). reflexivity.
  - destruct ev as [[|] l t|st tx|];
      simpl; unfold bind, onprogress, setProgress, ret; simpl; apply IH.
Qed.

Lemma progress_shows_last_computable_event_witness :
  progress (ui (snd (deliver (fun x => setProgress x)
                       ([UploadProgress true 100 100]
                          ++ UploadProgress true 50 100
                          :: [UploadProgress false 0 0; Load 200 "OK"])
                       Unsettled {| ui := initial; log := [] |})))
  = percent 50 100.
Proof.
  apply (progress_shows_last_computable_event [UploadProgress true 100 100]
           [UploadProgress false 0 0; Load 200 "OK"] 50 100). reflexivity.
Defined.

(** X13: for every total up to 2^44 bytes, nothing sent is reported as 0
    and everything sent as exactly 100. *)
Theorem percent_of_nothing_and_of_all (total : Z) :
  0 < total <= 2 ^ 44 ->
  percent 0 total = Number.of_Z 0 /\ percent total total = Number.of_Z 100.
Proof.
  intros [Hp Hs]. split.
  - destruct (percent_spec 0 total ltac:(lia) ltac:(lia)) as (z & E & Hz & Near).
    specialize (Near Hs). assert (z = 0) by nia. subst z. exact E.
  - destruct (percent_spec total total ltac:(lia) ltac:(lia)) as (z & E & Hz & Near).
    specialize (Near Hs). assert (z = 100) by nia. subst z. exact E.
Qed.

Lemma percent_of_nothing_and_of_all_witness :
  percent 0 2048 = Number.of_Z 0 /\ percent 2048 2048 = Number.of_Z 100.
Proof.
  apply (percent_of_nothing_and_of_all 2048). lia.
Defined.

(** ** Names of the listed objects *)

Lemma pop_more (x y : string) (l : list string) : pop (x :: y :: l) = pop (y :: l).
Proof.
  unfold pop. simpl. destruct (rev l) as [|z zs]; reflexivity.
Qed.

Lemma split_pieces (sep : ascii) (s : string) :
  exists head tail, split sep s = head :: tail.
Proof.
  destruct s as [|c s]; simpl; [eauto|].
  destruct (Ascii.eqb c sep); [eauto|].
  destruct (split sep s); eauto.
Qed.

Lemma split_two (sep : ascii) (dir n : string) :
  exists a b rest, split sep (dir ++ String sep n) = a :: b :: rest.
Proof.
  induction dir as [|c dir IH]; simpl.
  - rewrite Ascii.eqb_refl. destruct (split_pieces sep n) as (h & t & ->). eauto.
  - destruct IH as (a & b & rest & ->). destruct (Ascii.eqb c sep); eauto.
Qed.

Lemma pop_after_separator (sep : ascii) (dir n : string) :
  pop (split sep (dir ++ String sep n)) = pop (split sep n).
Proof.
  induction dir as [|c dir IH]; simpl.
  - rewrite Ascii.eqb_refl. destruct (split_pieces sep n) as (h & t & ->).
    apply pop_more.
  - destruct (split_two sep dir n) as (a & b & rest & E). rewrite E in *.
    destruct (Ascii.eqb c sep); rewrite !pop_more in *; exact IH.
Qed.

Lemma includes_char (c : ascii) (d : ascii) (s : string) :
  includes (String d s) (String c EmptyString)
  = Ascii.eqb d c || includes s (String c EmptyString).
Proof.
  unfold includes. simpl.
  destruct (ascii_dec c d) as [->|N].
  - rewrite Ascii.eqb_refl. destruct s; reflexivity.
  - assert (E : Ascii.eqb d c = false) by (apply Ascii.eqb_neq; congruence).
    rewrite E. simpl. destruct (index 0 (String c "") s); reflexivity.
Qed.

Lemma split_whole (sep : ascii) (n : string) :
  includes n (String sep EmptyString) = false -> split sep n = [n].
Proof.
  induction n as [|c n IH]; [reflexivity|].
  rewrite includes_char. intros H. apply orb_false_elim in H. destruct H as [Hc Hn].
  simpl. rewrite Hc, (IH Hn). reflexivity.
Qed.

(** X14: a list item shows the part of the key after its last slash: for a
    key [dir/name] whose [name] has no slash it shows [name], and a key
    without any slash is shown whole. *)
Theorem shown_name_is_last_segment (dir name : string) :
  includes name "/" = false ->
  shown_name (dir ++ "/" ++ name) = Some name /\ shown_name name = Some name.
Proof.
  intros H. unfold shown_name. split.
  - change (dir ++ "/" ++ name) with (dir ++ String "/" name).
    rewrite pop_after_separator, (split_whole "/" name H). reflexivity.
  - rewrite (split_whole "/" name H). reflexivity.
Qed.

Lemma shown_name_is_last_segment_witness :
  shown_name ("uploads" ++ "/" ++ "report.pdf") = Some "report.pdf"
  /\ shown_name "report.pdf" = Some "report.pdf".
Proof.
  apply (shown_name_is_last_segment "uploads" "report.pdf"). reflexivity.
Defined.

(** ** The Worker's handlers *)

(** X15: POST /api/employees answers 400 'nirc, full_name and email
    required' whenever the body does not parse or lacks a truthy [nirc],
    [full_name] or [email]; the check comes before the D1 binding is looked
    at, so the answer is the same with or without a database. *)
Theorem post_employees_requires_three_fields (env : Worker.Env) (request : Worker.Request) :
  Worker.payload request = None
  \/ (exists body,
        Worker.payload request = Some body
        /\ (when_truthy (get_opt body "nirc") = None
            \/ when_truthy (get_opt body "full_name") = None
            \/ when_truthy (get_opt body "email") = None)) ->
  Worker.post_employees env request
  = Worker.jsonResponse (JObj [("error", JStr "nirc, full_name and email required")]) 400.
Proof.
  unfold Worker.post_employees, Worker.safeJson, Worker.falsy.
  intros [E|(body & E & Miss)]; rewrite E; [reflexivity|].
  destruct Miss as [M|[M|M]]; rewrite M; simpl; rewrite ?orb_true_r; reflexivity.
Qed.

Lemma post_employees_requires_three_fields_witness :
  Worker.post_employees deployed
    {| Worker.method := "POST"; Worker.pathname := "/api/employees"; Worker.query := [];
       Worker.payload := Some (JObj [("nirc", JStr "S1234567D"); ("full_name", JStr "");
                                     ("email", JStr "a@b.c")]) |}
  = Worker.jsonResponse (JObj [("error", JStr "nirc, full_name and email required")]) 400.
Proof.
  apply post_employees_requires_three_fields.
  right. eexists. split; [reflexivity|]. right. left. reflexivity.
Defined.



(** X17: an entry of the listing carries the four fields [key], [size],
    [uploaded] and [httpEtag] of the stored object, with the values the
    bucket gave, and nothing else of it. *)
Theorem summary_keeps_four_fields (o : json) (k : string) :
  get (Worker.summary o) k
  = if ((k =? "key") || (k =? "size") || (k =? "uploaded") || (k =? "httpEtag"))%string
    then get o k else None.
Proof.
  unfold Worker.summary. cbn [flat_map get].
  destruct (String.eqb_spec k "key") as [->|N1];
    [destruct (get o "key"), (get o "size"), (get o "uploaded"), (get o "httpEtag");
     reflexivity|].
  destruct (String.eqb_spec k "size") as [->|N2];
    [destruct (get o "key"), (get o "size"), (get o "uploaded"), (get o "httpEtag");
     reflexivity|].
  destruct (String.eqb_spec k "uploaded") as [->|N3];
    [destruct (get o "key"), (get o "size"), (get o "uploaded"), (get o "httpEtag");
     reflexivity|].
  destruct (String.eqb_spec k "httpEtag") as [->|N4];
    [destruct (get o "key"), (get o "size"), (get o "uploaded"), (get o "httpEtag");
     reflexivity|].
  cbn [orb].
  assert (E : forall a, k <> a -> (a =? k)%string = false)
    by (intros a A; apply String.eqb_neq; congruence).
  destruct (get o "key"), (get o "size"), (get o "uploaded"), (get o "httpEtag");
    cbn [app assoc]; rewrite ?(E _ N1), ?(E _ N2), ?(E _ N3), ?(E _ N4); reflexivity.
Qed.






(** X20: every GET is answered, by an API route or by the static handler;
    a request whose method is neither GET nor POST matches no route, and the
    router hands back nothing. *)
Theorem router_answers_get_only (env : Worker.Env) (request : Worker.Request) :
  (Worker.method request = "GET" -> Worker.fetch request env <> None)
  /\ (Worker.method request <> "GET" -> Worker.method request <> "POST" ->
      Worker.fetch request env = None).
Proof.
  unfold Worker.fetch, Worker.handle, Worker.router. cbn [find].
  unfold Worker.matches. cbn [Worker.verb Worker.path]. split.
  - intros ->. cbn [String.eqb Ascii.eqb Bool.eqb andb].
    repeat match goal with
           | |- context [if ?c then _ else _] => destruct c
           end; discriminate.
  - intros G P.
    assert (Eg : ("GET" =? Worker.method request)%string = false)
      by (apply String.eqb_neq; congruence).
    assert (Ep : ("POST" =? Worker.method request)%string = false)
      by (apply String.eqb_neq; congruence).
    rewrite Eg, Ep. reflexivity.
Qed.

Lemma router_answers_get_only_witness :
  (Worker.method (presign_http "a" "b") = "GET" ->
   Worker.fetch (presign_http "a" "b") deployed <> None)
  /\ (Worker.method (presign_http "a" "b") <> "GET" ->
      Worker.method (presign_http "a" "b") <> "POST" ->
      Worker.fetch (presign_http "a" "b") deployed = None).
Proof.
  apply (router_answers_get_only deployed (presign_http "a" "b")).
Defined.

Lemma worker_never_issues_url_witness :
  get (JObj [("objects", JArr [])]) "url" = None.
Proof.
  apply (worker_never_issues_url deployed
           {| Worker.method := "GET"; Worker.pathname := "/api/r2/list";
              Worker.query := []; Worker.payload := None |}
           (Worker.jsonResponse (JObj [("objects", JArr [])]) 200));
    reflexivity.
Defined.

(** ** The upload page against the Worker *)

(** X28: the listing, end to end.  When the bucket lists [objects] under
    uploads/, the Worker's reply makes [refreshList] show one entry per
    object, in the bucket's order, each reduced to its four listed fields. *)
Theorem listing_round_trip (env : Worker.Env) (request : Worker.Request)
    (bucket : Worker.R2Bucket) (listed : list json) (statusText : string)
    (r : Response) (w : world) (s : state) :
  Worker.BUCKET env = Some bucket ->
  Worker.list_prefix bucket "uploads/" = inr (Some listed) ->
  over_http statusText (Worker.get_r2_list env request) = Some r ->
  fetch_reply w "/api/r2/list" [] = Reply r ->
  run (refreshList w) s
  = (Return tt,
     {| ui := {| file := file s; progress := progress s;
                 objects := JArr (map Worker.summary listed) |};
        log := [list_request] |}).
Proof.
  intros B L O F. unfold Worker.get_r2_list in O. rewrite B, L in O.
  injection O as <-.
  unfold run, refreshList, apiGet, fetch, member, setObjects, emit, bind, ret.
  simpl. rewrite F. reflexivity.
Qed.

Lemma listing_round_trip_witness :
  let held := JObj [("key", JStr "uploads/report.pdf"); ("size", JNum (Number.of_Z 2048));
                    ("checksums", JObj [])] in
  let env := {| Worker.ASSETS := None; Worker.employee_db := None;
                Worker.BUCKET := Some {| Worker.list_prefix := fun _ => inr (Some [held]) |};
                Worker.R2_ACCESS_KEY := None; Worker.R2_SECRET_KEY := None;
                Worker.R2_ACCOUNT_ID := None |} in
  let request := {| Worker.method := "GET"; Worker.pathname := "/api/r2/list";
                    Worker.query := []; Worker.payload := None |} in
  let w := {| fetch_reply := fun _ _ =>
                match over_http "OK" (Worker.get_r2_list env request) with
                | Some r => Reply r
                | None => NoReply
                end;
              xhr_events := [] |} in
  run (refreshList w) initial
  = (Return tt,
     {| ui := {| file := file initial; progress := progress initial;
                 objects := JArr (map Worker.summary [held]) |};
        log := [list_request] |}).
Proof.
  intros held env request w.
  eapply (listing_round_trip env request) with (statusText := "OK"); reflexivity.
Defined.

(** ** The employee page *)

Import EmployeePage.

Lemma read_returns (helper path : string) (res : Response) (m : page) :
  exists j extra,
    read helper path res m = (Return j, {| ui := ui m; log := (log m ++ extra)%list |})
    /\ (forall c, In c extra -> exists text, c = Warn text)
    /\ (j = JNull \/ (ok res = true /\ body res = Some j)).
Proof.
  unfold read.
  destruct (ok res) eqn:O; simpl.
  - destruct (includes _ _); simpl.
    + destruct (body res) as [j|] eqn:B.
      * exists j, []. rewrite app_nil_r. destruct m. repeat split; auto.
        intros c [].
      * eexists JNull, [_]. unfold bind, emit, ret. simpl. repeat split; auto.
        intros c [<-|[]]. eexists. reflexivity.
    + exists JNull, []. rewrite app_nil_r. destruct m. repeat split; auto.
      intros c [].
  - eexists JNull, [_]. unfold bind, emit, ret. simpl. repeat split; auto.
    intros c [<-|[]]. eexists. reflexivity.
Qed.

(** What [refresh] does, by the reply to its request. *)
Lemma refresh_runs (w : world) (m : page) :
  match get_reply w "/api/employees" with
  | NoReply =>
      refresh w m
      = (Return tt,
         {| ui := {| employees := []; form := form (ui m); loading := false;
                     error_message := Some "Failed to load employees" |};
            log := (log m ++ [Get "/api/employees";
                              LogError "Failed to fetch employees"])%list |})
  | Reply res =>
      exists j extra,
        refresh w m
        = (Return tt,
           {| ui := {| employees := array_or_empty (rows_of j); form := form (ui m);
                       loading := false; error_message := None |};
              log := (log m ++ Get "/api/employees" :: extra)%list |})
        /\ (forall c, In c extra -> exists text, c = Warn text)
        /\ (j = JNull \/ (ok res = true /\ body res = Some j))
  end.
Proof.
  destruct (get_reply w "/api/employees") as [|res] eqn:G.
  - unfold refresh, finally, try_catch, bind, apiGet, setLoading, setError, setEmployees,
      emit, throw. simpl. rewrite G. simpl. rewrite <- app_assoc. reflexivity.
  - destruct (read_returns "apiGet" "/api/employees" res
                {| ui := {| employees := employees (ui m); form := form (ui m);
                            loading := true; error_message := None |};
                   log := (log m ++ [Get "/api/employees"])%list |})
      as (j & extra & E & W & J).
    exists j, extra. split; [|split; assumption].
    unfold refresh, finally, try_catch, apiGet, setLoading, setError, setEmployees,
      emit, throw, bind. cbn [ui log employees form loading error_message].
    rewrite G. cbn [ui log employees form loading error_message] in E |- *.
    rewrite E. cbn [ui log employees form loading error_message].
    rewrite <- app_assoc. reflexivity.
Qed.


(** X23: the rows shown after [refresh] never depend on the rows shown
    before: they are the [results] array of the parsed body of a 2xx reply,
    and the empty list in every other case. *)
Theorem refresh_shows_results_or_nothing (w : world) (m : page) :
  employees (ui (snd (refresh w m))) = []
  \/ exists res j,
       get_reply w "/api/employees" = Reply res
       /\ ok res = true
       /\ body res = Some j
       /\ get j "results" = Some (JArr (employees (ui (snd (refresh w m))))).
Proof.
  pose proof (refresh_runs w m) as R.
  destruct (get_reply w "/api/employees") as [|res].
  - rewrite R. left. reflexivity.
  - destruct R as (j & extra & R & _ & J). rewrite R. simpl.
    destruct J as [->|[O B]]; [left; reflexivity|].
    unfold rows_of, or_else.
    destruct (truthy j); [|left; reflexivity].
    destruct (get j "results") as [rows|] eqn:G; [|left; reflexivity].
    destruct (truthy rows); [|left; reflexivity].
    destruct rows; try (left; reflexivity).
    right. exists res, j. simpl. auto.
Qed.

(** X24: a 2xx JSON reply whose body has an array [results] is shown as it
    is, with no error message. *)
Theorem refresh_shows_the_rows (w : world) (m : page) (res : Response)
    (fields : list (string * json)) (rows : list json) :
  get_reply w "/api/employees" = Reply res ->
  ok res = true ->
  content_type res = Some "application/json" ->
  body res = Some (JObj fields) ->
  assoc "results" fields = Some (JArr rows) ->
  ui (snd (refresh w m))
  = {| employees := rows; form := form (ui m); loading := false; error_message := None |}.
Proof.
  intros G O C B A.
  unfold refresh, finally, try_catch, bind, apiGet, read, setLoading, setError,
    setEmployees, emit, throw, ret. simpl. rewrite G. simpl. rewrite O, C, B. simpl.
  unfold rows_of. simpl. rewrite A. reflexivity.
Qed.

Lemma refresh_shows_the_rows_witness :
  let row := JObj [("nirc", JStr "S1234567D"); ("full_name", JStr "Ada")] in
  let w := {| get_reply := fun _ =>
                Reply {| status := 200; statusText := "OK";
                         content_type := Some "application/json";
                         body := Some (JObj [("results", JArr [row])]) |};
              post_reply := fun _ _ => NoReply |} in
  let m := {| ui := {| employees := []; form := blank; loading := false;
                       error_message := Some "Failed to load employees" |};
              log := [] |} in
  ui (snd (refresh w m))
  = {| employees := [row]; form := blank; loading := false; error_message := None |}.
Proof.
  cbv zeta.
  eapply refresh_shows_the_rows; reflexivity.
Defined.

(** What [refresh] shows depends on the form alone, not on what was shown
    or logged before. *)
Lemma refresh_forgets (w : world) (p q : page) :
  form (ui p) = form (ui q) -> ui (snd (refresh w p)) = ui (snd (refresh w q)).
Proof.
  intros F.
  unfold refresh, finally, try_catch, apiGet, read, setLoading, setError, setEmployees,
    emit, throw, ret, bind. cbn [ui log employees form loading error_message].
  destruct (get_reply w "/api/employees") as [|res];
    cbn [ui log employees form loading error_message snd]; [rewrite F; reflexivity|].
  destruct (ok res); cbn [negb];
    [destruct (includes _ _); cbn [negb]; [destruct (body res)|]|];
    cbn [ui log employees form loading error_message snd]; rewrite F; reflexivity.
Qed.

(** What [submit] does: the request, then [refresh] on the blanked form; a
    failed request leaves its message only until [refresh] clears it. *)
Lemma submit_runs (w : world) (m : page) :
  exists (message : option string) (extra : list call),
    submit w m
    = (Return tt,
       snd (refresh w {| ui := {| employees := employees (ui m); form := blank;
                                  loading := loading (ui m);
                                  error_message := message |};
                         log := (log m ++ Post "/api/employees"
                                            (Some (form_json (form (ui m)))) :: extra)%list |}))
    /\ (forall c, In c extra -> exists text, c = Warn text \/ c = LogError text).
Proof.
  assert (R : forall p, exists p', refresh w p = (Return tt, p')).
  { intros p. pose proof (refresh_runs w p) as R.
    destruct (get_reply w "/api/employees"); [eexists; exact R|].
    destruct R as (j & extra & R & _). eexists. exact R. }
  destruct (post_reply w "/api/employees" (Some (form_json (form (ui m))))) as [|res] eqn:G.
  - exists (Some "Failed to add employee"), [LogError "Failed to add employee"].
    split.
    + unfold submit, finally, try_catch, apiPost, getForm, setForm, setError, detached,
        emit, throw, ret, bind. cbn [ui log employees form loading error_message].
      rewrite G. cbn [ui log employees form loading error_message].
      rewrite <- app_assoc. cbn [app].
      match goal with |- context [refresh w ?p] => destruct (R p) as (p' & ->) end.
      reflexivity.
    + intros c [<-|[]]. eexists. right. reflexivity.
  - destruct (read_returns "apiPost" "/api/employees" res
                {| ui := ui m;
                   log := (log m ++ [Post "/api/employees"
                                       (Some (form_json (form (ui m))))])%list |})
      as (j & extra & E & W & _).
    exists (error_message (ui m)), extra.
    split.
    + unfold submit, finally, try_catch, apiPost, getForm, setForm, setError, detached,
        emit, throw, ret, bind. cbn [ui log employees form loading error_message].
      rewrite G. cbn [ui log] in E. rewrite E.
      cbn [ui log employees form loading error_message].
      rewrite <- app_assoc. cbn [app].
      match goal with |- context [refresh w ?p] => destruct (R p) as (p' & ->) end.
      reflexivity.
    + intros c I. destruct (W c I) as (text & ->). exists text. left. reflexivity.
Qed.


(** X26: what the page shows after [submit] does not depend on the answer to
    the POST: rows, message and [loading] are those [refresh] alone gives on
    the blanked form. *)
Theorem submit_shows_what_refresh_shows (w : world) (m : page) :
  ui (snd (submit w m))
  = ui (snd (refresh w {| ui := {| employees := employees (ui m); form := blank;
                                   loading := loading (ui m);
                                   error_message := error_message (ui m) |};
                          log := log m |})).
Proof.
  destruct (submit_runs w m) as (message & extra & -> & _). cbn [snd].
  apply refresh_forgets. reflexivity.
Qed.

(** ** The pages against the Worker *)

(** X27: the Worker refuses a submitted form with 400 exactly when its
    [nirc], [full_name] or [email] is empty; an empty [position] is no
    reason to refuse. *)
Theorem posted_form_refused_iff_required_field_empty (env : Worker.Env) (f : Form) :
  Worker.status (Worker.post_employees env (posted f)) = 400
  <-> nirc f = "" \/ full_name f = "" \/ email f = "".
Proof.
  unfold Worker.post_employees, Worker.safeJson, Worker.falsy, posted, form_json,
    when_truthy, get_opt, get.
  cbn [Worker.payload assoc String.eqb Ascii.eqb Bool.eqb truthy].
  destruct (String.eqb_spec (nirc f) "") as [N|N],
           (String.eqb_spec (full_name f) "") as [F|F],
           (String.eqb_spec (email f) "") as [E|E];
    cbn [negb orb Worker.jsonResponse Worker.status];
    try (split; [intros _; tauto | reflexivity]).
  split; [|tauto]. intros H. exfalso.
  destruct (Worker.employee_db env) as [db|]; [|discriminate].
  destruct (Worker.insert_employee db _ _ _ _) as [?|[?|]]; discriminate.
Qed.

(** X29: the directory, end to end.  When the database returns an array of
    rows, the Worker's reply makes [refresh] show these rows, with no
    message. *)
Theorem directory_round_trip (env : Worker.Env) (request : Worker.Request)
    (db : Worker.D1Database) (rows : list json) (statusText : string)
    (r : Response) (w : EmployeePage.world) (m : page) :
  Worker.employee_db env = Some db ->
  Worker.all_employees db = inr (Some (JArr rows)) ->
  over_http statusText (Worker.get_employees env request) = Some r ->
  get_reply w "/api/employees" = Reply r ->
  ui (snd (refresh w m))
  = {| employees := rows; form := form (ui m); loading := false; error_message := None |}.
Proof.
  intros D A O G. unfold Worker.get_employees in O. rewrite D, A in O.
  injection O as <-.
  unfold refresh, finally, try_catch, apiGet, read, setLoading, setError,
    setEmployees, emit, throw, ret, bind. simpl. rewrite G. reflexivity.
Qed.

Lemma directory_round_trip_witness :
  let row := JObj [("id", JNum (Number.of_Z 1)); ("nirc", JStr "S1234567D")] in
  let env := {| Worker.ASSETS := None;
                Worker.employee_db :=
                  Some {| Worker.insert_employee := fun _ _ _ _ => inr None;
                          Worker.all_employees := inr (Some (JArr [row])) |};
                Worker.BUCKET := None; Worker.R2_ACCESS_KEY := None;
                Worker.R2_SECRET_KEY := None; Worker.R2_ACCOUNT_ID := None |} in
  let request := {| Worker.method := "GET"; Worker.pathname := "/api/employees";
                    Worker.query := []; Worker.payload := None |} in
  let w := {| get_reply := fun _ =>
                match over_http "OK" (Worker.get_employees env request) with
                | Some r => Reply r
                | None => NoReply
                end;
              post_reply := fun _ _ => NoReply |} in
  let m := {| ui := {| employees := []; form := blank; loading := false;
                       error_message := None |};
              log := [] |} in
  ui (snd (refresh w m))
  = {| employees := [row]; form := form (ui m); loading := false; error_message := None |}.
Proof.
  intros row env request w m.
  eapply (directory_round_trip env request) with (statusText := "OK"); reflexivity.
Defined.

(** X30: a Worker without its database, or whose query fails, answers 500;
    the employee page then shows an empty directory and no message, the only
    trace being one console warning. *)
Theorem database_failure_shows_empty_directory (env : Worker.Env)
    (request : Worker.Request) (statusText : string) (r : Response)
    (w : EmployeePage.world) (m : page) :
  Worker.employee_db env = None
  \/ (exists db message,
        Worker.employee_db env = Some db /\ Worker.all_employees db = inl message) ->
  over_http statusText (Worker.get_employees env request) = Some r ->
  get_reply w "/api/employees" = Reply r ->
  refresh w m
  = (Return tt,
     {| ui := {| employees := []; form := form (ui m); loading := false;
                 error_message := None |};
        log := (log m ++ [Get "/api/employees";
                          Warn ("apiGet /api/employees returned 500 " ++ statusText)])%list |}).
Proof.
  intros D O G. unfold Worker.get_employees in O.
  assert (E : r = {| status := 500; statusText := statusText;
                     content_type := Some "application/json"; body := body r |}
              /\ True).
  { destruct D as [D|(db & msg & D & A)]; rewrite D in O; [|rewrite A in O];
      injection O as <-; split; auto. }
  destruct E as [E _].
  unfold refresh, finally, try_catch, apiGet, read, setLoading, setError,
    setEmployees, emit, throw, ret, bind. simpl. rewrite G. rewrite E. simpl.
  rewrite <- app_assoc. reflexivity.
Qed.

Lemma database_failure_shows_empty_directory_witness :
  let request := {| Worker.method := "GET"; Worker.pathname := "/api/employees";
                    Worker.query := []; Worker.payload := None |} in
  let w := {| get_reply := fun _ =>
                match over_http "Internal Server Error"
                        (Worker.get_employees deployed request) with
                | Some r => Reply r
                | None => NoReply
                end;
              post_reply := fun _ _ => NoReply |} in
  let m := {| ui := {| employees := [JNull]; form := blank; loading := false;
                       error_message := None |};
              log := [] |} in
  refresh w m
  = (Return tt,
     {| ui := {| employees := []; form := form (ui m); loading := false;
                 error_message := None |};
        log := (log m ++ [Get "/api/employees";
                          Warn ("apiGet /api/employees returned 500 "
                                  ++ "Internal Server Error")])%list |}).
Proof.
  intros request w m.
  eapply (database_failure_shows_empty_directory deployed request);
    [left; reflexivity | reflexivity | reflexivity].
Defined.
